(** * go-multicall: the batching loop of [MulticallRaw]

    A shallow embedding of [service.go] and of the configuration file of
    the package (types [CallRequest], [CallResult], [MulticallConfig] and
    their constructors), followed by the properties of the chunk loop.

    Conventions of the embedding.
    - Go's [int] is a [Z] kept in the 64-bit range (a 64-bit platform);
      [GoInt.add] writes out the wrap-around of [+] and [+=].
    - [cfg] and [cfg.Client] are not nil: a configuration is a record, a
      client a handle on which [CallContract] is defined.
    - A Go slice is a [list]; slicing and indexed stores check their
      bounds and panic outside them, as the Go runtime does.  The slice
      returned by [MulticallRaw] is an [option (list _)], [None] being the
      [nil] the error paths return.
    - The Ethereum node behind [cfg.Client] is a state machine of an
      abstract state [Node]; the ABI loaded from [multicall_abi.json] is
      given by its two methods.  Both are parameters of the development.
    - A run of [MulticallRaw] yields its outcome, the node state it leaves
      and the sequence of the steps it took (the slices it cut and the
      operations it performed on its collaborators), in program order.
    - The [for] loop takes a fuel argument, one unit per iteration;
      [OutOfFuel] means that the loop was still running. *)

From stdpp Require Import base list sets strings pretty.

Open Scope Z_scope.

(** ** Machine integers *)

Module GoInt.
Definition min_int : Z := - 2 ^ 63.
Definition max_int : Z := 2 ^ 63 - 1.

Definition in_range (z : Z) : Prop := min_int <= z <= max_int.

(** Two's complement reduction of a mathematical integer to [int]. *)
Definition wrap (z : Z) : Z := (z + 2 ^ 63) mod 2 ^ 64 - 2 ^ 63.

(** [a + b] on [int]. *)
Definition add (a b : Z) : Z := wrap (a + b).
End GoInt.

(** [len(s)] *)
Definition len {A : Type} (s : list A) : Z := Z.of_nat (length s).

(** [s[low:high]] for a slice whose capacity is its length; [None] is the
    run-time panic "slice bounds out of range". *)
Definition slice {A : Type} (s : list A) (low high : Z) : option (list A) :=
  if (0 <=? low) && (low <=? high) && (high <=? len s)
  then Some (take (Z.to_nat (high - low)) (drop (Z.to_nat low) s))
  else None.

(** ** Errors *)

Inductive error : Type :=
| errorString (s : string)                (* an error made by a collaborator *)
| wrapError (msg : string) (err : error). (* what [fmt.Errorf] builds for [%w] *)

Definition Error (e : error) : string :=
  match e with
  | errorString s => s
  | wrapError msg _ => msg
  end.

Definition Unwrap (e : error) : option error :=
  match e with
  | errorString _ => None
  | wrapError _ err => Some err
  end.

(** [fmt.Errorf(prefix + "%d: %w", i, err)] for a non-nil [err]. *)
Definition Errorf (prefix : string) (i : Z) (err : error) : error :=
  wrapError (prefix +:+ pretty i +:+ ": " +:+ Error err) err.

(** A Go pair [(value, error)] of which only one side is meaningful. *)
Inductive result (A : Type) : Type :=
| ok (a : A)
| failed (err : error).
Arguments ok {A} a.
Arguments failed {A} err.

(** ** Data of the package *)

Definition Address : Type := Z.        (* [common.Address], read as a number *)
Definition bytes : Type := list Byte.byte.  (* [[]byte] *)
Definition Duration : Type := Z.       (* [time.Duration], in nanoseconds *)

Definition Second : Duration := 1000000000.

Definition defaultBatchSize : Z := 100.
Definition defaultTimeout : Duration := 30 * Second.

Record CallRequest : Type := {
  Target : Address;
  AllowFailure : bool;
  CallData : bytes
}.

Record CallResult : Type := {
  Success : bool;
  Data : bytes
}.

(** The zero value that [make([]CallResult, n)] fills its slots with. *)
Definition zeroCallResult : CallResult := {| Success := false; Data := [] |}.

Definition NewCallRequest (target : Address) (packedCallData : bytes)
    (allowFailure : bool) : CallRequest :=
  {| Target := target; AllowFailure := allowFailure; CallData := packedCallData |}.

(** ** Collaborators' data: [context] and [ethereum.CallMsg] *)

(** A [context.Context], reduced to its deadline (a clock reading). *)
Record Context : Type := { deadline : option Z }.

Definition Background : Context := {| deadline := None |}.

(** [context.WithTimeout(parent, timeout)] called when the clock reads
    [now]; the cancel function it also returns has no effect on a context
    that nothing else holds. *)
Definition WithTimeout (parent : Context) (timeout : Duration) (now : Z) : Context :=
  {| deadline :=
       Some (match deadline parent with
             | None => now + timeout
             | Some d => Z.min d (now + timeout)
             end) |}.

Module ethereum.
Record CallMsg : Type := { To : option Address; Data : bytes }.
End ethereum.

(** ** Runs *)

(** The steps of [MulticallRaw] that a run records: the slice it takes in
    an iteration, with its bounds, and the operations on its collaborators,
    each with what it was given and what it got back. *)
Inductive Event : Type :=
| EvSlice (low high : Z)
    (* [calls[low:high]] was taken *)
| EvPack (name : string) (batch : list CallRequest) (ret : result bytes)
    (* [multicallABI.Pack(name, batch)] *)
| EvCall (ctx : Context) (msg : ethereum.CallMsg) (blockNumber : option Z)
    (ret : result bytes)
    (* [cfg.Client.CallContract(ctx, msg, blockNumber)] *)
| EvUnpack (name : string) (raw : bytes) (ret : result (list CallResult)).
    (* [multicallABI.UnpackIntoInterface(&response, name, raw)] *)

Inductive Outcome : Type :=
| Returned (results : option (list CallResult)) (err : option error)
| Panicked (msg : string)
| OutOfFuel.

Section Multicall.

(** The handle type behind a pointer to [ethclient.Client] and the state of the node
    it talks to, which also carries the clock. *)
Variable EthClient : Type.
Variable Node : Type.
Variable now : Node -> Z.

(** The method [CallContract] of a non-nil [ethclient.Client]. *)
Variable CallContract :
  EthClient -> Context -> ethereum.CallMsg -> option Z -> Node -> result bytes * Node.

(** The two methods of [multicallABI] that the loop uses. *)
Variable Pack : string -> list CallRequest -> result bytes.
Variable UnpackIntoInterface : string -> bytes -> result (list CallResult).

Record MulticallConfig : Type := {
  Client : EthClient;
  MulticallAddress : Address;
  BatchSize : Z;
  Timeout : Duration
}.

Definition NewMulticallConfig (client : EthClient) (multicallAddress : Address)
    (batchSize : Z) (timeout : Duration) : MulticallConfig :=
  {| Client := client;
     MulticallAddress := multicallAddress;
     BatchSize := batchSize;
     Timeout := timeout |}.

Definition NewDefaultMulticallConfig (client : EthClient)
    (multicallAddress : Address) : MulticallConfig :=
  NewMulticallConfig client multicallAddress defaultBatchSize defaultTimeout.

Record Run : Type := {
  outcome : Outcome;
  node_after : Node;
  events : list Event
}.

Definition finish (o : Outcome) (node : Node) (evs : list Event) : Run :=
  {| outcome := o; node_after := node; events := evs |}.

(** [evs] happened, then the run [r]. *)
Definition after (evs : list Event) (r : Run) : Run :=
  finish (outcome r) (node_after r) (evs ++ events r).

(** [for j := range response { results[i+j] = response[j] }], from
    index [j] on; [None] is the panic "index out of range". *)
Fixpoint store (results : list CallResult) (i j : Z)
    (response : list CallResult) : option (list CallResult) :=
  match response with
  | [] => Some results
  | r :: response' =>
      let k := GoInt.add i j in
      if (0 <=? k) && (k <? len results)
      then store (<[Z.to_nat k := r]> results) i (j + 1) response'
      else None
  end.

(** What one iteration of the chunk loop leaves behind. *)
Inductive Step : Type :=
| Continue (results : list CallResult)
| Stop (o : Outcome).

(** The body of the loop of [MulticallRaw], at index [i]. *)
Definition body (cfg : MulticallConfig) (ctx : Context)
    (calls : list CallRequest) (i : Z) (results : list CallResult)
    (node : Node) : Step * Node * list Event :=
  let high := Z.min (GoInt.add i (BatchSize cfg)) (len calls) in
  match slice calls i high with
  | None => (Stop (Panicked "slice bounds out of range"), node, [])
  | Some batch =>
      let packed := Pack "aggregate3" batch in
      match packed with
      | failed err =>
          (Stop (Returned None (Some (Errorf "failed to pack multicall " i err))),
           node, [EvSlice i high; EvPack "aggregate3" batch packed])
      | ok callData =>
          let callMsg :=
            {| ethereum.To := Some (MulticallAddress cfg);
               ethereum.Data := callData |} in
          let '(called, node') := CallContract (Client cfg) ctx callMsg None node in
          match called with
          | failed err =>
              (Stop (Returned None (Some (Errorf "failed to execute multicall " i err))),
               node',
               [EvSlice i high; EvPack "aggregate3" batch packed;
                EvCall ctx callMsg None called])
          | ok raw =>
              let unpacked := UnpackIntoInterface "aggregate3" raw in
              let evs :=
                [EvSlice i high; EvPack "aggregate3" batch packed;
                 EvCall ctx callMsg None called;
                 EvUnpack "aggregate3" raw unpacked] in
              match unpacked with
              | failed err =>
                  (Stop (Returned None (Some (Errorf "failed to unpack multicall " i err))),
                   node', evs)
              | ok response =>
                  match store results i 0 response with
                  | None => (Stop (Panicked "index out of range"), node', evs)
                  | Some results' => (Continue results', node', evs)
                  end
              end
          end
      end
  end.

(** The ways an iteration ends the loop, as a relation: the outcome, the
    node state and the events that [body] yields with [Stop], each under
    the conditions that lead there. *)
Inductive Stopped (cfg : MulticallConfig) (ctx : Context)
    (calls : list CallRequest) (i : Z) (results : list CallResult) (node : Node)
    : Outcome -> Node -> list Event -> Prop :=
| StoppedSlice :
    let high := Z.min (GoInt.add i (BatchSize cfg)) (len calls) in
    slice calls i high = None ->
    Stopped cfg ctx calls i results node
      (Panicked "slice bounds out of range") node []
| StoppedPack batch err :
    let high := Z.min (GoInt.add i (BatchSize cfg)) (len calls) in
    slice calls i high = Some batch ->
    Pack "aggregate3" batch = failed err ->
    Stopped cfg ctx calls i results node
      (Returned None (Some (Errorf "failed to pack multicall " i err))) node
      [EvSlice i high; EvPack "aggregate3" batch (failed err)]
| StoppedCall batch callData err node' :
    let high := Z.min (GoInt.add i (BatchSize cfg)) (len calls) in
    let callMsg := {| ethereum.To := Some (MulticallAddress cfg);
                      ethereum.Data := callData |} in
    slice calls i high = Some batch ->
    Pack "aggregate3" batch = ok callData ->
    CallContract (Client cfg) ctx callMsg None node = (failed err, node') ->
    Stopped cfg ctx calls i results node
      (Returned None (Some (Errorf "failed to execute multicall " i err))) node'
      [EvSlice i high; EvPack "aggregate3" batch (ok callData);
       EvCall ctx callMsg None (failed err)]
| StoppedUnpack batch callData raw err node' :
    let high := Z.min (GoInt.add i (BatchSize cfg)) (len calls) in
    let callMsg := {| ethereum.To := Some (MulticallAddress cfg);
                      ethereum.Data := callData |} in
    slice calls i high = Some batch ->
    Pack "aggregate3" batch = ok callData ->
    CallContract (Client cfg) ctx callMsg None node = (ok raw, node') ->
    UnpackIntoInterface "aggregate3" raw = failed err ->
    Stopped cfg ctx calls i results node
      (Returned None (Some (Errorf "failed to unpack multicall " i err))) node'
      [EvSlice i high; EvPack "aggregate3" batch (ok callData);
       EvCall ctx callMsg None (ok raw); EvUnpack "aggregate3" raw (failed err)]
| StoppedStore batch callData raw response node' :
    let high := Z.min (GoInt.add i (BatchSize cfg)) (len calls) in
    let callMsg := {| ethereum.To := Some (MulticallAddress cfg);
                      ethereum.Data := callData |} in
    slice calls i high = Some batch ->
    Pack "aggregate3" batch = ok callData ->
    CallContract (Client cfg) ctx callMsg None node = (ok raw, node') ->
    UnpackIntoInterface "aggregate3" raw = ok response ->
    store results i 0 response = None ->
    Stopped cfg ctx calls i results node (Panicked "index out of range") node'
      [EvSlice i high; EvPack "aggregate3" batch (ok callData);
       EvCall ctx callMsg None (ok raw); EvUnpack "aggregate3" raw (ok response)].

(** [for i := ...; i < len(calls); i += cfg.BatchSize { body }] followed
    by [return results, nil]. *)
Fixpoint chunkLoop (fuel : nat) (cfg : MulticallConfig) (ctx : Context)
    (calls : list CallRequest) (i : Z) (results : list CallResult)
    (node : Node) : Run :=
  match fuel with
  | O => finish OutOfFuel node []
  | S fuel' =>
      if i <? len calls then
        match body cfg ctx calls i results node with
        | (Stop o, node', evs) => finish o node' evs
        | (Continue results', node', evs) =>
            after evs
              (chunkLoop fuel' cfg ctx calls (GoInt.add i (BatchSize cfg))
                 results' node')
        end
      else finish (Returned (Some results) None) node []
  end.

Definition MulticallRaw (fuel : nat) (cfg : MulticallConfig)
    (calls : list CallRequest) (node : Node) : Run :=
  let results := replicate (length calls) zeroCallResult in
  let ctx := WithTimeout Background (Timeout cfg) (now node) in
  chunkLoop fuel cfg ctx calls 0 results node.

(** The collaborators answer every call on its own: whatever the batch,
    the node and the context, packing, calling and unpacking succeed and
    yield [answer c] for each call [c] of the batch, in order. *)
Definition answers_each_call (answer : CallRequest -> CallResult) : Prop :=
  forall (client : EthClient) (ctx : Context) (to : option Address)
         (batch : list CallRequest) (node : Node),
  exists (callData raw : bytes) (node' : Node),
    Pack "aggregate3" batch = ok callData /\
    CallContract client ctx
      {| ethereum.To := to; ethereum.Data := callData |} None node
      = (ok raw, node') /\
    UnpackIntoInterface "aggregate3" raw = ok (map answer batch).

End Multicall.

Arguments Client {EthClient} _.
Arguments MulticallAddress {EthClient} _.
Arguments BatchSize {EthClient} _.
Arguments Timeout {EthClient} _.
Arguments NewMulticallConfig {EthClient} client multicallAddress batchSize timeout.
Arguments NewDefaultMulticallConfig {EthClient} client multicallAddress.
Arguments outcome {Node} _.
Arguments node_after {Node} _.
Arguments events {Node} _.
Arguments finish {Node} o node evs.
Arguments after {Node} evs r.
Arguments body {EthClient Node} CallContract Pack UnpackIntoInterface
  cfg ctx calls i results node.
Arguments Stopped {EthClient Node} CallContract Pack UnpackIntoInterface
  cfg ctx calls i results node _ _ _.
Arguments chunkLoop {EthClient Node} CallContract Pack UnpackIntoInterface
  fuel cfg ctx calls i results node.
Arguments answers_each_call {EthClient Node} CallContract Pack
  UnpackIntoInterface answer.
Arguments MulticallRaw {EthClient Node} now CallContract Pack UnpackIntoInterface
  fuel cfg calls node.

(** ** Reading a run's events *)

(** The index ranges of the chunks taken, in the order they were taken. *)
Fixpoint slices (evs : list Event) : list (Z * Z) :=
  match evs with
  | [] => []
  | EvSlice low high :: evs' => (low, high) :: slices evs'
  | _ :: evs' => slices evs'
  end.

(** The response lists decoded, one per chunk that got that far. *)
Fixpoint responses (evs : list Event) : list (list CallResult) :=
  match evs with
  | [] => []
  | EvUnpack _ _ (ok response) :: evs' => response :: responses evs'
  | _ :: evs' => responses evs'
  end.

(** The contexts handed to the remote calls. *)
Fixpoint contexts (evs : list Event) : list Context :=
  match evs with
  | [] => []
  | EvCall ctx _ _ _ :: evs' => ctx :: contexts evs'
  | _ :: evs' => contexts evs'
  end.

(** The operation came back with an error. *)
Definition is_failure (ev : Event) : bool :=
  match ev with
  | EvPack _ _ (failed _) => true
  | EvCall _ _ _ (failed _) => true
  | EvUnpack _ _ (failed _) => true
  | _ => false
  end.

(** The error [e] reports the failure [ev] for the chunk that starts at
    index [i]: it wraps the error [ev] came back with, under a message that
    names the failed step and [i]. *)
Definition reports (e : error) (i : Z) (ev : Event) : Prop :=
  match ev with
  | EvPack _ _ (failed inner) => e = Errorf "failed to pack multicall " i inner
  | EvCall _ _ _ (failed inner) => e = Errorf "failed to execute multicall " i inner
  | EvUnpack _ _ (failed inner) => e = Errorf "failed to unpack multicall " i inner
  | _ => False
  end.

(** The failed operation behind an event: the words [MulticallRaw] puts
    before the index when it reports it, and the error the operation came
    back with. *)
Definition failure_of (ev : Event) : option (string * error) :=
  match ev with
  | EvPack _ _ (failed inner) => Some ("failed to pack multicall ", inner)
  | EvCall _ _ _ (failed inner) => Some ("failed to execute multicall ", inner)
  | EvUnpack _ _ (failed inner) => Some ("failed to unpack multicall ", inner)
  | _ => None
  end.

(** [rs] cuts [[low, high)] into consecutive non-empty ranges: each range
    starts where the one before it ended, the first at [low], and the last
    one ends at [high]. *)
Fixpoint tiles (low high : Z) (rs : list (Z * Z)) : Prop :=
  match rs with
  | [] => low = high
  | (s, e) :: rs' => s = low /\ s < e /\ tiles e high rs'
  end.

(** The batches handed to [Pack], in order. *)
Fixpoint batches (evs : list Event) : list (list CallRequest) :=
  match evs with
  | [] => []
  | EvPack _ batch _ :: evs' => batch :: batches evs'
  | _ :: evs' => batches evs'
  end.

(** The remote calls made: the arguments of each [CallContract]. *)
Fixpoint calls_made (evs : list Event)
    : list (Context * ethereum.CallMsg * option Z) :=
  match evs with
  | [] => []
  | EvCall ctx msg blockNumber _ :: evs' =>
      (ctx, msg, blockNumber) :: calls_made evs'
  | _ :: evs' => calls_made evs'
  end.

(** What the remote calls came back with. *)
Fixpoint returns (evs : list Event) : list (result bytes) :=
  match evs with
  | [] => []
  | EvCall _ _ _ ret :: evs' => ret :: returns evs'
  | _ :: evs' => returns evs'
  end.

(** The byte strings the node replied with. *)
Fixpoint replies (evs : list Event) : list bytes :=
  match evs with
  | [] => []
  | EvCall _ _ _ (ok raw) :: evs' => raw :: replies evs'
  | _ :: evs' => replies evs'
  end.

(** The byte strings handed to [UnpackIntoInterface]. *)
Fixpoint unpacked (evs : list Event) : list bytes :=
  match evs with
  | [] => []
  | EvUnpack _ raw _ :: evs' => raw :: unpacked evs'
  | _ :: evs' => unpacked evs'
  end.

(** The method names the ABI was used with. *)
Fixpoint methods (evs : list Event) : list string :=
  match evs with
  | [] => []
  | EvPack name _ _ :: evs' => name :: methods evs'
  | EvUnpack name _ _ :: evs' => name :: methods evs'
  | _ :: evs' => methods evs'
  end.

(** ** Concrete collaborators

    A codec that writes one byte per call, and two nodes: one that sends
    the payload back and one that stops answering after a number of
    calls.  The decoded result of a call is then the byte that stood for
    it. *)

Module Demo.

Definition tag (c : CallRequest) : Byte.byte := hd Byte.x00 (CallData c).

Definition answer (c : CallRequest) : CallResult :=
  {| Success := true; Data := [tag c] |}.

Definition Pack (name : string) (batch : list CallRequest) : result bytes :=
  ok (map tag batch).

Definition UnpackIntoInterface (name : string) (raw : bytes)
    : result (list CallResult) :=
  ok (map (fun b => {| Success := true; Data := [b] |}) raw).

(** A decoder that finds nothing in any response. *)
Definition UnpackNothing (name : string) (raw : bytes)
    : result (list CallResult) :=
  ok [].

(** A decoder that rejects what it is given. *)
Definition UnpackGarbled (name : string) (raw : bytes)
    : result (list CallResult) :=
  failed (errorString "abi: cannot marshal").

(** The node counts the calls it has served; its clock reads that count. *)
Definition now (node : nat) : Z := Z.of_nat node.

Definition echo (client : unit) (ctx : Context) (msg : ethereum.CallMsg)
    (blockNumber : option Z) (node : nat) : result bytes * nat :=
  (ok (ethereum.Data msg), S node).

(** Answers while fewer than [limit] calls were served. *)
Definition flaky (limit : nat) (client : unit) (ctx : Context)
    (msg : ethereum.CallMsg) (blockNumber : option Z) (node : nat)
    : result bytes * nat :=
  if (node <? limit)%nat
  then (ok (ethereum.Data msg), S node)
  else (failed (errorString "context deadline exceeded"), S node).

Definition multicall3 : Address := 0xcA11bde05977b3631167028862bE2a173976CA11.

Definition cfg (batchSize : Z) : MulticallConfig unit :=
  NewMulticallConfig tt multicall3 batchSize (30 * Second).

Definition call (b : Byte.byte) : CallRequest := NewCallRequest 7 [b] true.

Definition five : list CallRequest :=
  [call Byte.x01; call Byte.x02; call Byte.x03; call Byte.x04; call Byte.x05].

(** Five calls in batches of two, against the node that answers. *)
Definition five_by_two : Run nat :=
  MulticallRaw now echo Pack UnpackIntoInterface 4 (cfg 2) five 0%nat.

(** The same, against a node that answers once. *)
Definition five_by_two_flaky : Run nat :=
  MulticallRaw now (flaky 1) Pack UnpackIntoInterface 4 (cfg 2) five 0%nat.

(** One call under a batch size of zero, with [fuel] iterations allowed. *)
Definition one_by_zero (fuel : nat) : Run nat :=
  MulticallRaw now echo Pack UnpackIntoInterface fuel
    (NewMulticallConfig tt multicall3 0 (30 * Second)) [call Byte.x01] 0%nat.

(** A decoder that stops after the first entry. *)
Definition UnpackFirst (name : string) (raw : bytes)
    : result (list CallResult) :=
  ok (take 1 (map (fun b => {| Success := true; Data := [b] |}) raw)).

(** Five calls in batches of two, decoded up to the first entry. *)
Definition five_by_two_first : Run nat :=
  MulticallRaw now echo Pack UnpackFirst 4 (cfg 2) five 0%nat.

(** A decoder that yields one entry too many. *)
Definition UnpackPadded (name : string) (raw : bytes)
    : result (list CallResult) :=
  ok (map (fun b => {| Success := true; Data := [b] |}) raw ++ [zeroCallResult]).

(** Five calls in batches of two, decoded with an entry too many. *)
Definition five_by_two_padded : Run nat :=
  MulticallRaw now echo Pack UnpackPadded 4 (cfg 2) five 0%nat.

(** Five calls in batches of two, decoded to nothing. *)
Definition five_by_two_nothing : Run nat :=
  MulticallRaw now echo Pack UnpackNothing 4 (cfg 2) five 0%nat.

End Demo.

(** * Properties of the embedding *)

(** ** Integers, slices and stores *)

(** Unfolds the bounds of [int] down to numerals, for [lia]. *)
Ltac int_bounds :=
  unfold GoInt.in_range, GoInt.min_int, GoInt.max_int in *;
  change (2 ^ 62) with 4611686018427387904 in *;
  change (2 ^ 63) with 9223372036854775808 in *;
  change (2 ^ 64) with 18446744073709551616 in *.

Lemma GoInt_add_exact (a b : Z) :
  GoInt.in_range (a + b) -> GoInt.add a b = a + b.
Proof.
  unfold GoInt.add, GoInt.wrap. intros ?. int_bounds.
  rewrite Z.mod_small; lia.
Qed.

Lemma len_nonneg {A : Type} (s : list A) : 0 <= len s.
Proof. unfold len. lia. Qed.

Lemma len_app {A : Type} (s t : list A) : len (s ++ t) = len s + len t.
Proof. unfold len. rewrite length_app. lia. Qed.

Lemma slice_Some {A : Type} (s : list A) (low high : Z) :
  0 <= low <= high -> high <= len s ->
  slice s low high = Some (take (Z.to_nat (high - low)) (drop (Z.to_nat low) s)).
Proof.
  intros [Hl Hlh] Hh. unfold slice.
  by rewrite (proj2 (Z.leb_le _ _) Hl), (proj2 (Z.leb_le _ _) Hlh),
    (proj2 (Z.leb_le _ _) Hh).
Qed.

Lemma slice_inv {A : Type} (s batch : list A) (low high : Z) :
  slice s low high = Some batch ->
  0 <= low <= high /\ high <= len s /\
  batch = take (Z.to_nat (high - low)) (drop (Z.to_nat low) s).
Proof.
  unfold slice. intros H.
  destruct (Z.leb_spec 0 low), (Z.leb_spec low high), (Z.leb_spec high (len s));
    simplify_eq/=. repeat split; lia || done.
Qed.

Lemma slice_len {A : Type} (s batch : list A) (low high : Z) :
  slice s low high = Some batch -> len batch = high - low.
Proof.
  intros H. apply slice_inv in H as (? & ? & ->).
  unfold len in *. rewrite length_take, length_drop. lia.
Qed.

(** The store loop in closed form: it either overruns the buffer or
    overwrites the slots [i+j ..] with the response. *)
Lemma store_closed (response results : list CallResult) (i j : Z) :
  0 <= i -> 0 <= j -> i + j <= len results -> len results < 2 ^ 62 ->
  store results i j response =
    if i + j + len response <=? len results
    then Some (take (Z.to_nat (i + j)) results ++ response
               ++ drop (Z.to_nat (i + j + len response)) results)
    else None.
Proof.
  revert results j.
  induction response as [|r response IH]; intros results j Hi Hj Hij Hlen.
  - cbn [store]. replace (i + j + len []) with (i + j) by (unfold len; simpl; lia).
    rewrite (proj2 (Z.leb_le _ _) Hij). by rewrite app_nil_l, take_drop.
  - cbn [store]. cbv zeta.
    rewrite GoInt_add_exact by (int_bounds; lia).
    replace (len (r :: response)) with (1 + len response)
      by (unfold len; cbn [length]; lia).
    destruct (Z.ltb_spec (i + j) (len results)) as [Hlt|Hge].
    + rewrite (proj2 (Z.leb_le 0 (i + j))) by lia. cbn [andb].
      assert (Hk : (Z.to_nat (i + j) < length results)%nat)
        by (unfold len in *; lia).
      rewrite IH; [|lia|lia|unfold len in *; rewrite length_insert; lia
                   |unfold len in *; rewrite length_insert; lia].
      replace (len (<[Z.to_nat (i + j):=r]> results)) with (len results)
        by (unfold len; by rewrite length_insert).
      replace (i + (j + 1) + len response) with (i + j + (1 + len response)) by lia.
      destruct (i + j + (1 + len response) <=? len results); [|done].
      f_equal.
      replace (Z.to_nat (i + (j + 1))) with (S (Z.to_nat (i + j))) by lia.
      rewrite (take_S_r _ _ r) by (by apply list_lookup_insert_eq).
      rewrite take_insert_ge by lia.
      rewrite drop_insert_lt by (pose proof (len_nonneg response); lia).
      by rewrite <- app_assoc.
    + rewrite andb_false_r.
      destruct (Z.leb_spec (i + j + (1 + len response)) (len results)); [|done].
      pose proof (len_nonneg response). lia.
Qed.

Lemma slices_app (evs evs' : list Event) :
  slices (evs ++ evs') = slices evs ++ slices evs'.
Proof. induction evs as [|[] evs IH]; simpl; by rewrite ?IH. Qed.

Lemma responses_app (evs evs' : list Event) :
  responses (evs ++ evs') = responses evs ++ responses evs'.
Proof.
  induction evs as [|[| | |? ? []] evs IH]; simpl; by rewrite ?IH.
Qed.

Lemma contexts_app (evs evs' : list Event) :
  contexts (evs ++ evs') = contexts evs ++ contexts evs'.
Proof. induction evs as [|[] evs IH]; simpl; by rewrite ?IH. Qed.

Lemma batches_app (evs evs' : list Event) :
  batches (evs ++ evs') = batches evs ++ batches evs'.
Proof. induction evs as [|[] evs IH]; simpl; by rewrite ?IH. Qed.

Lemma calls_made_app (evs evs' : list Event) :
  calls_made (evs ++ evs') = calls_made evs ++ calls_made evs'.
Proof. induction evs as [|[] evs IH]; simpl; by rewrite ?IH. Qed.

Lemma returns_app (evs evs' : list Event) :
  returns (evs ++ evs') = returns evs ++ returns evs'.
Proof. induction evs as [|[] evs IH]; simpl; by rewrite ?IH. Qed.

Lemma replies_app (evs evs' : list Event) :
  replies (evs ++ evs') = replies evs ++ replies evs'.
Proof.
  induction evs as [|[| |? ? ? []|] evs IH]; simpl; by rewrite ?IH.
Qed.

Lemma unpacked_app (evs evs' : list Event) :
  unpacked (evs ++ evs') = unpacked evs ++ unpacked evs'.
Proof. induction evs as [|[] evs IH]; simpl; by rewrite ?IH. Qed.

Lemma methods_app (evs evs' : list Event) :
  methods (evs ++ evs') = methods evs ++ methods evs'.
Proof. induction evs as [|[] evs IH]; simpl; by rewrite ?IH. Qed.

(** What a report lets its reader see: the error that was wrapped, and
    a message made of the words for the failed step, the index in decimal
    and the message of the wrapped error. *)
Lemma reports_observable (e : error) (i : Z) (ev : Event) :
  reports e i ev ->
  exists (prefix : string) (inner : error),
    failure_of ev = Some (prefix, inner) /\
    Unwrap e = Some inner /\
    Error e = prefix +:+ pretty i +:+ ": " +:+ Error inner.
Proof.
  destruct ev as [| ? ? [|inner] | ? ? ? [|inner] | ? ? [|inner]];
    cbn [reports]; try done; intros ->; eexists _, _; by repeat split.
Qed.

(** ** One iteration *)

Section Loop.

Context {EthClient Node : Type}.
Variable now : Node -> Z.
Variable CallContract :
  EthClient -> Context -> ethereum.CallMsg -> option Z -> Node -> result bytes * Node.
Variable Pack : string -> list CallRequest -> result bytes.
Variable UnpackIntoInterface : string -> bytes -> result (list CallResult).

Local Abbreviation round := (body CallContract Pack UnpackIntoInterface).
Local Abbreviation stopped := (Stopped CallContract Pack UnpackIntoInterface).
Local Abbreviation loop := (chunkLoop CallContract Pack UnpackIntoInterface).
Local Abbreviation run := (MulticallRaw now CallContract Pack UnpackIntoInterface).

Implicit Types (cfg : MulticallConfig EthClient) (calls : list CallRequest).
Implicit Types (results response : list CallResult) (node : Node).
Implicit Types (ctx : Context) (i : Z) (fuel : nat) (evs : list Event).

(** An iteration that lets the loop go on did all four operations. *)
Lemma body_Continue cfg ctx calls i results node results' node' evs :
  round cfg ctx calls i results node = (Continue results', node', evs) ->
  exists batch callData raw response,
    let high := Z.min (GoInt.add i (BatchSize cfg)) (len calls) in
    let callMsg := {| ethereum.To := Some (MulticallAddress cfg);
                      ethereum.Data := callData |} in
    slice calls i high = Some batch /\
    Pack "aggregate3" batch = ok callData /\
    CallContract (Client cfg) ctx callMsg None node = (ok raw, node') /\
    UnpackIntoInterface "aggregate3" raw = ok response /\
    store results i 0 response = Some results' /\
    evs = [EvSlice i high; EvPack "aggregate3" batch (ok callData);
           EvCall ctx callMsg None (ok raw);
           EvUnpack "aggregate3" raw (ok response)].
Proof.
  unfold body. intros H. repeat case_match; simplify_eq.
  eexists _, _, _, _. cbv zeta. repeat split; eauto.
Qed.

Lemma body_Stop cfg ctx calls i results node o node' evs :
  round cfg ctx calls i results node = (Stop o, node', evs) ->
  stopped cfg ctx calls i results node o node' evs.
Proof.
  unfold body. intros H. repeat case_match; simplify_eq; econstructor; eauto.
Qed.

(** The loop, unfolded once. *)
Lemma chunkLoop_S fuel cfg ctx calls i results node :
  loop (S fuel) cfg ctx calls i results node =
    if i <? len calls then
      match round cfg ctx calls i results node with
      | (Stop o, node', evs) => finish o node' evs
      | (Continue results', node', evs) =>
          after evs
            (loop fuel cfg ctx calls (GoInt.add i (BatchSize cfg)) results' node')
      end
    else finish (Returned (Some results) None) node [].
Proof. reflexivity. Qed.

(** Case analysis on the first iteration of [loop (S fuel)]: the loop is
    over, the iteration stopped it, or it goes on. *)
Ltac loop_cases fuel IH :=
  rewrite chunkLoop_S;
  let Hlt := fresh "Hlt" in
  let Hb := fresh "Hb" in
  match goal with
  | |- context [?i <? len ?calls] =>
      destruct (Z.ltb_spec i (len calls)) as [Hlt|Hlt];
      [ match goal with
        | |- context [body ?cc ?pk ?up ?cfg ?ctx calls i ?results ?node] =>
            destruct (body cc pk up cfg ctx calls i results node)
              as [[[?results'|?o] ?node'] ?evs] eqn:Hb;
            [ apply body_Continue in Hb as
                (?batch & ?callData & ?raw & ?response & Hb);
              cbv zeta in Hb;
              destruct Hb as (?Hslice & ?Hpack & ?Hcall & ?Hunpack & ?Hstore & ->)
            | apply body_Stop in Hb ]
        end
      | ]
  end.

(** ** The shared context *)

Lemma chunkLoop_contexts fuel cfg ctx calls i results node :
  Forall (eq ctx) (contexts (events (loop fuel cfg ctx calls i results node))).
Proof.
  revert i results node. induction fuel as [|fuel IH]; intros i results node.
  - constructor.
  - loop_cases fuel IH.
    + cbn [after finish events]. rewrite contexts_app.
      apply Forall_app_2; [|apply IH]. repeat constructor.
    + destruct Hb; cbn; repeat constructor.
    + constructor.
Qed.

(** ** Returns: all or nothing *)

Lemma store_length response results results' i j :
  store results i j response = Some results' -> length results' = length results.
Proof.
  revert results j. induction response as [|r response IH]; intros results j.
  - by intros [= ->].
  - cbn [store]. cbv zeta. case_match; [|done].
    intros Hst%IH. by rewrite length_insert in Hst.
Qed.

Lemma chunkLoop_Returned_nil fuel cfg ctx calls i results node rs :
  outcome (loop fuel cfg ctx calls i results node) = Returned rs None ->
  exists res, rs = Some res /\ length res = length results /\
    Forall (fun ev => is_failure ev = false)
      (events (loop fuel cfg ctx calls i results node)).
Proof.
  revert i results node. induction fuel as [|fuel IH]; intros i results node.
  - done.
  - loop_cases fuel IH.
    + cbn [after finish outcome events]. intros (res & -> & Hres & Hev)%IH.
      exists res. split; [done|]. split.
      * rewrite Hres. by eapply store_length.
      * apply Forall_app_2; [|done]. by repeat constructor.
    + destruct Hb; done.
    + intros [= <-]. exists results. by repeat split.
Qed.

Lemma chunkLoop_Returned_error fuel cfg ctx calls i results node rs e :
  outcome (loop fuel cfg ctx calls i results node) = Returned rs (Some e) ->
  rs = None /\
  exists i' high ev,
    last (slices (events (loop fuel cfg ctx calls i results node)))
      = Some (i', high) /\
    last (events (loop fuel cfg ctx calls i results node)) = Some ev /\
    reports e i' ev.
Proof.
  revert i results node. induction fuel as [|fuel IH]; intros i results node.
  - done.
  - loop_cases fuel IH.
    + cbn [after finish outcome events].
      intros (-> & i' & high & ev & Hs & Hl & Hr)%IH. split; [done|].
      exists i', high, ev. rewrite slices_app, !last_app, Hs, Hl. by repeat split.
    + destruct Hb; try done; intros [= <- <-]; (split; [done|]);
        eexists _, _, _; cbn; (split; [reflexivity|split; reflexivity]).
    + done.
Qed.

Lemma chunkLoop_failure fuel cfg ctx calls i results node ev :
  ev ∈ events (loop fuel cfg ctx calls i results node) ->
  is_failure ev = true ->
  last (events (loop fuel cfg ctx calls i results node)) = Some ev /\
  exists err, outcome (loop fuel cfg ctx calls i results node)
              = Returned None (Some err).
Proof.
  revert i results node. induction fuel as [|fuel IH]; intros i results node.
  - by intros ?%elem_of_nil.
  - loop_cases fuel IH.
    + cbn [after finish outcome events]. intros [Hin|Hin]%elem_of_app Hf.
      * set_unfold. by destruct Hin as [->|[->|[->|[->|[]]]]].
      * destruct (IH _ _ _ Hin Hf) as [Hl He]. split; [|done].
        by rewrite last_app, Hl.
    + destruct Hb; cbn [finish outcome events]; intros Hin Hf; set_unfold;
        destruct_or?; simplify_eq/=; eauto.
    + by intros ?%elem_of_nil.
Qed.

(** A run that returns its results went through every index: each one
    lies in a range that was sliced, and so packed, called and decoded. *)
Lemma chunkLoop_covers fuel cfg ctx calls i results node res :
  0 <= i ->
  outcome (loop fuel cfg ctx calls i results node) = Returned (Some res) None ->
  forall p : Z, i <= p < len calls ->
    exists s e : Z,
      (s, e) ∈ slices (events (loop fuel cfg ctx calls i results node)) /\
      s <= p < e.
Proof.
  revert i results node. induction fuel as [|fuel IH]; intros i results node Hi.
  - done.
  - loop_cases fuel IH.
    + cbn [after finish outcome events]. rewrite slices_app. cbn [slices app].
      apply slice_inv in Hslice as (Hlow & Hhigh & _).
      intros Hret p Hp.
      destruct (decide (p < Z.min (GoInt.add i (BatchSize cfg)) (len calls)))
        as [Hin|Hout].
      * eexists _, _. split; [apply list_elem_of_here|lia].
      * destruct (IH (GoInt.add i (BatchSize cfg)) results' node'
                    ltac:(lia) Hret p ltac:(lia)) as (s & e & Hse & Hpe).
        exists s, e. split; [by apply list_elem_of_further|done].
    + by destruct Hb.
    + intros _ p Hp. lia.
Qed.

(** ** Chunks of a positive size *)

Section Batches.

Variable cfg : MulticallConfig EthClient.
Variable calls : list CallRequest.
(** The batch size is positive and, as a value of type [int], in range;
    the request list is no longer than a slice of 48-byte records can be
    in a 64-bit address space. *)
Hypothesis batch_pos : 1 <= BatchSize cfg.
Hypothesis batch_int : GoInt.in_range (BatchSize cfg).
Hypothesis calls_fit : len calls < 2 ^ 62.

(** The index of the loop never wraps around: it is a multiple of the
    batch size below [len calls], so adding the batch size stays in range. *)
Lemma add_step (k : nat) :
  Z.of_nat k * BatchSize cfg < len calls ->
  GoInt.add (Z.of_nat k * BatchSize cfg) (BatchSize cfg)
    = Z.of_nat (S k) * BatchSize cfg.
Proof.
  intros Hk. rewrite GoInt_add_exact; [lia|].
  int_bounds. destruct k; [lia|nia].
Qed.

(** A run that stopped in its first iteration took one range. *)
Local Ltac one_slice k :=
  split;
  [ intros [|?] ? ?; [|done]; intros [= <- <-];
    repeat split; [f_equal; lia|f_equal; lia|done]
  | exists (Z.min (Z.of_nat (S k) * BatchSize cfg) (len calls));
    cbn [tiles]; repeat split; (lia || done) ].

(** The ranges a run takes: the [q]-th one after [k] iterations starts at
    [(k + q) * BatchSize], and together they tile a prefix of the index
    range, all of it when the run returns its results. *)
Lemma chunkLoop_slices fuel ctx (k : nat) results node :
  (forall (q : nat) (s e : Z),
     slices (events (loop fuel cfg ctx calls (Z.of_nat k * BatchSize cfg)
                       results node)) !! q = Some (s, e) ->
     s = Z.of_nat (k + q) * BatchSize cfg /\
     e = Z.min (s + BatchSize cfg) (len calls) /\ s < len calls) /\
  exists high, high <= len calls /\
    tiles (Z.min (Z.of_nat k * BatchSize cfg) (len calls)) high
      (slices (events (loop fuel cfg ctx calls (Z.of_nat k * BatchSize cfg)
                         results node))) /\
    forall rs,
      outcome (loop fuel cfg ctx calls (Z.of_nat k * BatchSize cfg) results node)
        = Returned (Some rs) None -> high = len calls.
Proof.
  revert k results node. induction fuel as [|fuel IH]; intros k results node.
  - split; [done|]. eexists. split; [|split; [reflexivity|done]]. lia.
  - loop_cases fuel IH.
    + rewrite add_step in * by done.
      destruct (IH (S k) results' node') as (IHq & high & Hhigh & Htiles & Hret).
      cbn [after finish outcome events]. rewrite slices_app. cbn [slices app].
      split.
      * intros [|q] s e; cbn [lookup list_lookup].
        -- intros [= <- <-]. split; [f_equal; lia|]. split; [|done].
           f_equal. lia.
        -- intros (-> & -> & ?)%IHq. split; [f_equal; lia|done].
      * exists high. split; [done|]. split; [|done].
        cbn [tiles]. split; [lia|]. split; [lia|].
        by replace (Z.of_nat k * BatchSize cfg + BatchSize cfg)
          with (Z.of_nat (S k) * BatchSize cfg) by lia.
    + destruct Hb; subst high; try subst callMsg; rewrite add_step in * by done;
        cbn [finish outcome events slices].
      * split; [done|]. exists (Z.of_nat k * BatchSize cfg).
        cbn [tiles]. split; [lia|]. split; [lia|done].
      * one_slice k.
      * one_slice k.
      * one_slice k.
      * one_slice k.
    + cbn [finish outcome events slices]. split; [done|].
      exists (len calls). cbn [tiles]. split; [lia|]. split; [lia|done].
Qed.

(** Fuel for one iteration per chunk, and one more to leave the loop, is
    enough: the run then ends, with a return or with the panic of a store
    past the end of the buffer. *)
Lemma chunkLoop_terminates fuel ctx (k : nat) results node :
  len calls - Z.of_nat k * BatchSize cfg <= Z.of_nat fuel * BatchSize cfg ->
  (exists rs e,
     outcome (loop (S fuel) cfg ctx calls (Z.of_nat k * BatchSize cfg) results node)
       = Returned rs e) \/
  outcome (loop (S fuel) cfg ctx calls (Z.of_nat k * BatchSize cfg) results node)
    = Panicked "index out of range".
Proof.
  revert k results node. induction fuel as [|fuel IH]; intros k results node Hf.
  - rewrite chunkLoop_S.
    destruct (Z.ltb_spec (Z.of_nat k * BatchSize cfg) (len calls)); [lia|].
    left. by eexists _, _.
  - loop_cases fuel IH.
    + rewrite add_step by done. cbn [after finish outcome].
      apply IH. lia.
    + destruct Hb as [high Hsl| | | |]; cbn [finish outcome]; eauto.
      subst high. rewrite add_step in Hsl by done.
      by rewrite slice_Some in Hsl by lia.
    + left. by eexists _, _.
Qed.

(** Within the buffer, the store loop writes the response at its offset
    and leaves the slots before it alone. *)
Lemma store_lookup results results' response (k : nat) :
  length results = length calls ->
  Z.of_nat k * BatchSize cfg < len calls ->
  store results (Z.of_nat k * BatchSize cfg) 0 response = Some results' ->
  length results' = length calls /\
  (forall p : nat, Z.of_nat p < Z.of_nat k * BatchSize cfg ->
     results' !! p = results !! p) /\
  (forall (j : nat) (x : CallResult), response !! j = Some x ->
     results' !! Z.to_nat (Z.of_nat k * BatchSize cfg + Z.of_nat j) = Some x).
Proof.
  intros Hlen Hk Hstore. pose proof (store_length _ _ _ _ _ Hstore) as Hlen'.
  split; [congruence|].
  assert (Hres : len results = len calls) by (unfold len; congruence).
  rewrite store_closed in Hstore by lia.
  destruct (Z.leb_spec (Z.of_nat k * BatchSize cfg + 0 + len response)
              (len results)) as [Hle|]; [|done].
  injection Hstore as <-. rewrite Z.add_0_r in *.
  assert (Htake : length (take (Z.to_nat (Z.of_nat k * BatchSize cfg)) results)
                  = Z.to_nat (Z.of_nat k * BatchSize cfg))
    by (rewrite length_take; unfold len in *; lia).
  split.
  - intros p Hp. rewrite lookup_app_l by lia. apply lookup_take_lt. lia.
  - intros j x Hj. pose proof (lookup_lt_Some _ _ _ Hj).
    rewrite lookup_app_r by lia. rewrite lookup_app_l by lia.
    rewrite <- Hj. f_equal. lia.
Qed.

(** What a run that returns its results returns: past the slots that were
    filled before, slot [(k + q) * BatchSize + j] holds entry [j] of the
    [q]-th response decoded, whenever that response has such an entry. *)
Lemma chunkLoop_results fuel ctx (k : nat) results node res :
  length results = length calls ->
  outcome (loop fuel cfg ctx calls (Z.of_nat k * BatchSize cfg) results node)
    = Returned (Some res) None ->
  (forall p : nat, Z.of_nat p < Z.of_nat k * BatchSize cfg ->
     res !! p = results !! p) /\
  (forall q : nat, Z.of_nat (k + q) * BatchSize cfg < len calls ->
     exists response,
       responses (events (loop fuel cfg ctx calls (Z.of_nat k * BatchSize cfg)
                            results node)) !! q = Some response /\
       forall (j : nat) (x : CallResult),
         response !! j = Some x ->
         Z.of_nat j < BatchSize cfg ->
         Z.of_nat (k + q) * BatchSize cfg + Z.of_nat j < len calls ->
         res !! Z.to_nat (Z.of_nat (k + q) * BatchSize cfg + Z.of_nat j)
           = Some x).
Proof.
  revert k results node. induction fuel as [|fuel IH]; intros k results node Hlen.
  - done.
  - loop_cases fuel IH.
    + rewrite add_step by done. cbn [after finish outcome events].
      destruct (store_lookup _ _ _ _ Hlen Hlt Hstore) as (Hlen' & Hold & Hnew).
      intros [IHold IHnew]%IH; [|done]. split.
      * intros p Hp. rewrite IHold by lia. by apply Hold.
      * intros [|q] Hq.
        -- exists response. split; [done|]. intros j x Hj Hjb Hjn.
           replace (k + 0)%nat with k by lia.
           rewrite <- (Hnew j x Hj). apply IHold. lia.
        -- destruct (IHnew q) as (resp & Hresp & Hslots);
             [by replace (S k + q)%nat with (k + S q)%nat by lia|].
           exists resp. split; [done|].
           replace (k + S q)%nat with (S k + q)%nat by lia. done.
    + by destruct Hb.
    + cbn [finish outcome events]. intros [= <-]. split; [done|].
      intros q Hq. nia.
Qed.

(** With collaborators that answer every call on its own, the loop fills
    the slots from where it stands with the answers and returns. *)
Lemma chunkLoop_answers answer fuel ctx (k : nat) results node :
  answers_each_call CallContract Pack UnpackIntoInterface answer ->
  length results = length calls ->
  take (Z.to_nat (Z.min (Z.of_nat k * BatchSize cfg) (len calls))) results
    = map answer
        (take (Z.to_nat (Z.min (Z.of_nat k * BatchSize cfg) (len calls))) calls) ->
  len calls - Z.of_nat k * BatchSize cfg <= Z.of_nat fuel * BatchSize cfg ->
  outcome (loop (S fuel) cfg ctx calls (Z.of_nat k * BatchSize cfg) results node)
    = Returned (Some (map answer calls)) None.
Proof.
  intros Hans. revert k results node.
  induction fuel as [|fuel IH]; intros k results node Hlen Hinv Hfuel.
  - rewrite chunkLoop_S.
    destruct (Z.ltb_spec (Z.of_nat k * BatchSize cfg) (len calls)); [lia|].
    cbn [finish outcome]. do 2 f_equal.
    rewrite Z.min_r in Hinv by lia.
    rewrite !take_ge in Hinv by (unfold len in *; lia). done.
  - assert (Hres : len results = len calls) by (unfold len; congruence).
    loop_cases fuel IH.
    + rewrite add_step in * by done. cbn [after finish outcome].
      rewrite Z.min_l in Hinv by lia.
      pose proof (slice_len _ _ _ _ Hslice) as Hbatch.
      apply slice_inv in Hslice as (_ & _ & Hslice).
      destruct (Hans (Client cfg) ctx (Some (MulticallAddress cfg)) batch node)
        as (callData' & raw' & node'' & Hpack' & Hcall' & Hunpack').
      rewrite Hpack' in Hpack. injection Hpack as ->.
      rewrite Hcall' in Hcall. injection Hcall as -> ->.
      rewrite Hunpack' in Hunpack. injection Hunpack as <-.
      pose proof (store_length _ _ _ _ _ Hstore) as Hlen'.
      rewrite store_closed in Hstore by lia.
      destruct (Z.leb_spec (Z.of_nat k * BatchSize cfg + 0 + len (map answer batch))
                  (len results)) as [Hle|]; [|done].
      injection Hstore as <-. rewrite Z.add_0_r in *.
      apply IH; [congruence| |lia].
      set (high := Z.min (Z.of_nat (S k) * BatchSize cfg) (len calls)) in *.
      rewrite app_assoc. rewrite take_app_length'.
      * rewrite Hinv, <- map_app. f_equal. rewrite Hslice.
        rewrite take_take_drop. f_equal. lia.
      * rewrite length_app, length_take, length_map. unfold len in *. lia.
    + destruct (Hans (Client cfg) ctx (Some (MulticallAddress cfg))
                  (take (Z.to_nat (Z.min (Z.of_nat (S k) * BatchSize cfg) (len calls)
                                   - Z.of_nat k * BatchSize cfg))
                     (drop (Z.to_nat (Z.of_nat k * BatchSize cfg)) calls)) node)
        as (callData' & raw' & node'' & Hpack' & Hcall' & Hunpack').
      destruct Hb as [high Hsl|batch err high Hsl|batch callData err nd high msg Hsl
                     |batch callData raw err nd high msg Hsl
                     |batch callData raw response nd high msg Hsl];
        subst high; rewrite add_step in Hsl by done;
        rewrite slice_Some in Hsl by lia; simplify_eq; try subst msg;
        repeat match goal with
               | H : ?x = _, H' : ?x = _ |- _ => rewrite H in H'; simplify_eq
               end.
      match goal with
      | H : store _ _ _ _ = None |- _ =>
          rewrite store_closed in H by lia; revert H
      end.
      case_match eqn:Hover; [done|]. intros _. apply Z.leb_gt in Hover.
      unfold len in *. rewrite length_map, length_take, length_drop in *. lia.
    + cbn [finish outcome]. do 2 f_equal.
      rewrite Z.min_r in Hinv by lia.
      rewrite !take_ge in Hinv by (unfold len in *; lia). done.
Qed.

(** *** The claims on chunks of a positive size *)

(** C3.  With a batch size of at least 1 the chunk loop cuts the index
    range [[0, len calls)] into the ranges [[q * BatchSize, min (q *
    BatchSize + BatchSize) (len calls))], taken in increasing order: each
    starts where the one before ended, has between 1 and [BatchSize]
    indices, and only the last may have fewer than [BatchSize].  Given
    fuel for every chunk, the ranges taken are all of them, up to
    [len calls], unless a failure or a panic ended the call in the range
    taken last; they are all of them whenever the call returns without an
    error, and whenever the collaborators answer every call. *)
Theorem MulticallRaw_chunks_tile fuel node :
  len calls <= Z.of_nat fuel * BatchSize cfg ->
  (forall (q : nat) (s e : Z),
     slices (events (run (S fuel) cfg calls node)) !! q = Some (s, e) ->
     s = Z.of_nat q * BatchSize cfg /\
     e = Z.min (Z.of_nat q * BatchSize cfg + BatchSize cfg) (len calls) /\
     0 < e - s <= BatchSize cfg) /\
  (forall (q : nat) (s e : Z),
     slices (events (run (S fuel) cfg calls node)) !! q = Some (s, e) ->
     (S q < length (slices (events (run (S fuel) cfg calls node))))%nat ->
     e - s = BatchSize cfg) /\
  (exists high, high <= len calls /\
     tiles 0 high (slices (events (run (S fuel) cfg calls node)))) /\
  (tiles 0 (len calls) (slices (events (run (S fuel) cfg calls node))) \/
   (exists err, outcome (run (S fuel) cfg calls node) = Returned None (Some err)) \/
   outcome (run (S fuel) cfg calls node) = Panicked "index out of range") /\
  (forall rs,
     outcome (run (S fuel) cfg calls node) = Returned rs None ->
     tiles 0 (len calls) (slices (events (run (S fuel) cfg calls node)))) /\
  (forall answer,
     answers_each_call CallContract Pack UnpackIntoInterface answer ->
     tiles 0 (len calls) (slices (events (run (S fuel) cfg calls node)))).
Proof.
  intros Hfuel. unfold MulticallRaw. cbv zeta.
  set (ctx := WithTimeout Background (Timeout cfg) (now node)).
  set (results := replicate (length calls) zeroCallResult).
  destruct (chunkLoop_slices (S fuel) ctx 0 results node)
    as (Hq & high & Hhigh & Htiles & Hret).
  pose proof (chunkLoop_terminates fuel ctx 0 results node) as Hend.
  pose proof (len_nonneg calls) as Hn.
  rewrite Z.min_l in Htiles by lia.
  change (Z.of_nat 0 * BatchSize cfg) with 0 in *.
  assert (Hdone : forall rs,
            outcome (chunkLoop CallContract Pack UnpackIntoInterface (S fuel)
                       cfg ctx calls 0 results node) = Returned rs None ->
            tiles 0 (len calls)
              (slices (events (chunkLoop CallContract Pack UnpackIntoInterface
                                 (S fuel) cfg ctx calls 0 results node)))).
  { intros rs Hrs.
    destruct (chunkLoop_Returned_nil _ _ _ _ _ _ _ _ Hrs) as (res & -> & _).
    by rewrite <- (Hret res Hrs). }
  split; [|split; [|split; [|split; [|split]]]].
  - intros q s e (-> & -> & ?)%Hq. cbn [Nat.add]. lia.
  - intros q s e Hse Hnext.
    apply lookup_lt_is_Some_2 in Hnext as [[s' e'] Hnext].
    apply Hq in Hse as (-> & -> & ?). apply Hq in Hnext as (-> & _ & ?).
    cbn [Nat.add] in *. lia.
  - by exists high.
  - destruct Hend as [(rs & [err|] & Ho)|Ho]; [lia| | |by right; right].
    + right. left. exists err.
      by destruct (chunkLoop_Returned_error _ _ _ _ _ _ _ _ _ Ho) as [-> _].
    + left. by apply (Hdone rs).
  - exact Hdone.
  - intros answer Hans. apply (Hdone (Some (map answer calls))).
    change 0 with (Z.of_nat 0 * BatchSize cfg) at 1.
    apply chunkLoop_answers; [done|apply length_replicate| |lia].
    by rewrite Z.min_l by lia.
Qed.

(** C10.  With a batch size of at least 1 the chunk loop terminates: fuel
    for [fuel] iterations, where [fuel * BatchSize] reaches [len calls],
    and for the last test of the loop is never used up.  The index starts
    at 0 and grows by [BatchSize] in each iteration, there are at most
    [fuel] iterations, and the call ends with a return, or with a panic
    when a response overruns the result buffer. *)
Theorem MulticallRaw_terminates fuel node :
  len calls <= Z.of_nat fuel * BatchSize cfg ->
  outcome (run (S fuel) cfg calls node) <> OutOfFuel /\
  ((exists rs e, outcome (run (S fuel) cfg calls node) = Returned rs e) \/
   outcome (run (S fuel) cfg calls node) = Panicked "index out of range") /\
  (forall (q : nat) (s e : Z),
     slices (events (run (S fuel) cfg calls node)) !! q = Some (s, e) ->
     s = Z.of_nat q * BatchSize cfg) /\
  (length (slices (events (run (S fuel) cfg calls node))) <= fuel)%nat.
Proof.
  intros Hfuel. unfold MulticallRaw. cbv zeta.
  change 0 with (Z.of_nat 0 * BatchSize cfg).
  set (ctx := WithTimeout Background (Timeout cfg) (now node)).
  set (results := replicate (length calls) zeroCallResult).
  destruct (chunkLoop_slices (S fuel) ctx 0 results node) as [Hq _].
  pose proof (chunkLoop_terminates fuel ctx 0 results node) as Hend.
  split; [|split; [|split]].
  - destruct Hend as [(? & ? & ->)| ->]; [lia|done|done].
  - apply Hend. lia.
  - by intros q s e (-> & _)%Hq.
  - destruct (decide (length (slices (events (chunkLoop CallContract Pack
               UnpackIntoInterface (S fuel) cfg ctx calls
               (Z.of_nat 0 * BatchSize cfg) results node))) <= fuel)%nat)
      as [|Hmore]; [done|].
    destruct (lookup_lt_is_Some_2
                (slices (events (chunkLoop CallContract Pack
                   UnpackIntoInterface (S fuel) cfg ctx calls
                   (Z.of_nat 0 * BatchSize cfg) results node))) fuel)
      as [[s e] Hse]; [lia|].
    apply Hq in Hse as (-> & _ & ?). lia.
Qed.

End Batches.

(** *** The claims on every configuration *)

(** C4, as the code has it.  A failure of any chunk's [Pack],
    [CallContract] or [UnpackIntoInterface] ends the call at once with an
    error and a nil result list; and whenever the call returns, it returns
    either an error with a nil list, or no error with a list of
    [len calls] slots after a run in which nothing failed and every index
    was part of a chunk that went through.  No path returns a list
    together with an error.  In the list, with a batch size of at least
    1, slot [i] holds the entry at offset [i mod BatchSize] of the
    response decoded for chunk [i / BatchSize] whenever that response has
    such an entry. *)
Theorem MulticallRaw_all_or_nothing fuel cfg calls node :
  (forall ev : Event,
     ev ∈ events (run fuel cfg calls node) -> is_failure ev = true ->
     last (events (run fuel cfg calls node)) = Some ev /\
     exists err, outcome (run fuel cfg calls node) = Returned None (Some err)) /\
  (forall rs e,
     outcome (run fuel cfg calls node) = Returned rs e ->
     (rs = None /\ exists err, e = Some err) \/
     (e = None /\ exists res, rs = Some res /\ length res = length calls /\
        Forall (fun ev => is_failure ev = false)
          (events (run fuel cfg calls node)) /\
        (forall p : Z, 0 <= p < len calls ->
           exists s e' : Z,
             (s, e') ∈ slices (events (run fuel cfg calls node)) /\
             s <= p < e') /\
        (1 <= BatchSize cfg -> GoInt.in_range (BatchSize cfg) ->
         len calls < 2 ^ 62 ->
         forall i : Z, 0 <= i < len calls ->
           exists response,
             responses (events (run fuel cfg calls node))
               !! Z.to_nat (i / BatchSize cfg) = Some response /\
             forall x : CallResult,
               response !! Z.to_nat (i mod BatchSize cfg) = Some x ->
               res !! Z.to_nat i = Some x))).
Proof.
  unfold MulticallRaw. cbv zeta. split.
  - intros ev. apply chunkLoop_failure.
  - intros rs [err|] Hret.
    + left. apply chunkLoop_Returned_error in Hret as [-> _]. eauto.
    + right. split; [done|].
      destruct (chunkLoop_Returned_nil _ _ _ _ _ _ _ _ Hret)
        as (res & -> & Hlen & Hev).
      rewrite length_replicate in Hlen.
      exists res. split; [done|]. split; [done|]. split; [done|]. split.
      * by apply (chunkLoop_covers _ _ _ _ _ _ _ res).
      * intros Hpos Hint Hfit i Hi.
        destruct (chunkLoop_results cfg calls Hpos Hint Hfit fuel
                    (WithTimeout Background (Timeout cfg) (now node)) 0
                    (replicate (length calls) zeroCallResult) node res
                    (length_replicate _ _) Hret) as [_ Hnew].
        pose proof (Z.div_mod i (BatchSize cfg)).
        pose proof (Z.mod_pos_bound i (BatchSize cfg)).
        pose proof (Z.div_pos i (BatchSize cfg)).
        destruct (Hnew (Z.to_nat (i / BatchSize cfg)))
          as (response & Hresp & Hslots); [nia|].
        exists response. split; [exact Hresp|]. intros x Hx.
        specialize (Hslots _ _ Hx).
        replace (Z.of_nat (0 + Z.to_nat (i / BatchSize cfg)) * BatchSize cfg
                 + Z.of_nat (Z.to_nat (i mod BatchSize cfg))) with i in Hslots
          by lia.
        apply Hslots; lia.
Qed.

(** C7.  An error returned by [MulticallRaw] reports the failed operation
    of the chunk the loop was at: unwrapping it gives the error that
    [Pack], [CallContract] or [UnpackIntoInterface] came back with, and
    its message is made of the words for the failed step, the index at
    which that chunk starts, in decimal, a colon, and the message of the
    wrapped error. *)
Theorem MulticallRaw_error_names_chunk fuel cfg calls node rs e :
  outcome (run fuel cfg calls node) = Returned rs (Some e) ->
  exists (i high : Z) (ev : Event) (prefix : string) (inner : error),
    last (slices (events (run fuel cfg calls node))) = Some (i, high) /\
    last (events (run fuel cfg calls node)) = Some ev /\
    failure_of ev = Some (prefix, inner) /\
    Unwrap e = Some inner /\
    Error e = prefix +:+ pretty i +:+ ": " +:+ Error inner.
Proof.
  unfold MulticallRaw. cbv zeta.
  intros (_ & i & high & ev & Hs & Hl & Hr)%chunkLoop_Returned_error.
  destruct (reports_observable _ _ _ Hr) as (prefix & inner & Hf & Hu & He).
  by exists i, high, ev, prefix, inner.
Qed.

(** C8.  One context is made from [cfg.Timeout] before the loop, its
    deadline being the time of entry plus the timeout, and every remote
    call of the invocation is handed that context. *)
Theorem MulticallRaw_one_context fuel cfg calls node :
  deadline (WithTimeout Background (Timeout cfg) (now node))
    = Some (now node + Timeout cfg) /\
  Forall (eq (WithTimeout Background (Timeout cfg) (now node)))
    (contexts (events (run fuel cfg calls node))).
Proof. split; [done|]. apply chunkLoop_contexts. Qed.

(** C5.  On an empty request list [MulticallRaw] returns an empty result
    list and no error, without any operation on its collaborators: no
    remote call is made and the node is left as it was. *)
Theorem MulticallRaw_empty fuel cfg node :
  outcome (run (S fuel) cfg [] node) = Returned (Some []) None /\
  events (run (S fuel) cfg [] node) = [] /\
  contexts (events (run (S fuel) cfg [] node)) = [] /\
  node_after (run (S fuel) cfg [] node) = node.
Proof.
  unfold MulticallRaw. cbv zeta. rewrite chunkLoop_S.
  destruct (Z.ltb_spec 0 (len (@nil CallRequest))) as [Hlt|_]; [by cbn in Hlt|].
  by repeat split.
Qed.


(** C2, as the code has it.  [NewMulticallConfig] stores the batch size it
    is given as it is; a configuration made with a batch size of at least
    1 never makes [MulticallRaw] loop without progress: every chunk it
    takes is non-empty and the loop ends within [fuel] iterations once
    [fuel * batchSize] reaches [len calls]. *)
Theorem NewMulticallConfig_positive_batch_size client multicallAddress
    batchSize timeout calls fuel node :
  1 <= batchSize -> GoInt.in_range batchSize -> len calls < 2 ^ 62 ->
  len calls <= Z.of_nat fuel * batchSize ->
  BatchSize (NewMulticallConfig client multicallAddress batchSize timeout)
    = batchSize /\
  outcome (run (S fuel)
             (NewMulticallConfig client multicallAddress batchSize timeout)
             calls node) <> OutOfFuel /\
  forall (q : nat) (s e : Z),
    slices (events (run (S fuel)
                     (NewMulticallConfig client multicallAddress batchSize timeout)
                     calls node)) !! q = Some (s, e) ->
    s < e.
Proof.
  intros Hpos Hint Hfit Hfuel.
  set (cfg := NewMulticallConfig client multicallAddress batchSize timeout).
  split; [done|]. unfold MulticallRaw. cbv zeta.
  change 0 with (Z.of_nat 0 * BatchSize cfg).
  split.
  - destruct (chunkLoop_terminates cfg calls Hpos Hint Hfit fuel
                (WithTimeout Background (Timeout cfg) (now node)) 0
                (replicate (length calls) zeroCallResult) node)
      as [(? & ? & ->)| ->]; [cbn; lia|done|done].
  - destruct (chunkLoop_slices cfg calls Hpos Hint Hfit (S fuel)
                (WithTimeout Background (Timeout cfg) (now node)) 0
                (replicate (length calls) zeroCallResult) node) as [Hq _].
    intros q s e (-> & -> & ?)%Hq. cbn in *. lia.
Qed.

(** C9.  [NewDefaultMulticallConfig] keeps the client and the address it
    is given and sets the batch size to 100 and the timeout to 30 seconds
    (in nanoseconds). *)
Theorem NewDefaultMulticallConfig_fields (client : EthClient)
    (multicallAddress : Address) :
  Client (NewDefaultMulticallConfig client multicallAddress) = client /\
  MulticallAddress (NewDefaultMulticallConfig client multicallAddress)
    = multicallAddress /\
  BatchSize (NewDefaultMulticallConfig client multicallAddress) = 100 /\
  Timeout (NewDefaultMulticallConfig client multicallAddress) = 30 * Second /\
  30 * Second = 30000000000.
Proof. by repeat split. Qed.


(** ** The traffic of a run *)

(** The remote calls of a list, made one after the other from [node] on:
    what each came back with, and the node state after the last. *)
Fixpoint replay (client : EthClient)
    (cs : list (Context * ethereum.CallMsg * option Z)) (node : Node)
    : list (result bytes) * Node :=
  match cs with
  | [] => ([], node)
  | (ctx, msg, blockNumber) :: cs' =>
      let '(ret, node') := CallContract client ctx msg blockNumber node in
      let '(rets, node'') := replay client cs' node' in
      (ret :: rets, node'')
  end.

Lemma chunkLoop_calls_made fuel cfg ctx calls i results node (k : nat)
    c msg blockNumber :
  calls_made (events (loop fuel cfg ctx calls i results node)) !! k
    = Some (c, msg, blockNumber) ->
  ethereum.To msg = Some (MulticallAddress cfg) /\
  blockNumber = None /\
  exists batch,
    batches (events (loop fuel cfg ctx calls i results node)) !! k = Some batch /\
    Pack "aggregate3" batch = ok (ethereum.Data msg).
Proof.
  revert i results node k. induction fuel as [|fuel IH]; intros i results node k.
  - done.
  - loop_cases fuel IH.
    + cbn [after finish events]. rewrite calls_made_app, batches_app.
      cbn [calls_made batches app]. destruct k as [|k]; cbn [lookup list_lookup].
      * intros [= <- <- <-]. eauto.
      * apply IH.
    + destruct Hb; cbn [finish events calls_made batches]; try done;
        destruct k as [|k]; try done; cbn [lookup list_lookup];
        intros [= <- <- <-]; eauto.
    + done.
Qed.

Lemma chunkLoop_unpacked fuel cfg ctx calls i results node :
  unpacked (events (loop fuel cfg ctx calls i results node))
    = replies (events (loop fuel cfg ctx calls i results node)) /\
  Forall (eq "aggregate3")
    (methods (events (loop fuel cfg ctx calls i results node))).
Proof.
  revert i results node. induction fuel as [|fuel IH]; intros i results node.
  - by split.
  - loop_cases fuel IH.
    + cbn [after finish events].
      rewrite unpacked_app, replies_app, methods_app.
      destruct (IH (GoInt.add i (BatchSize cfg)) results' node') as [-> Hm].
      split; [done|]. apply Forall_app_2; [|done]. by repeat constructor.
    + destruct Hb; cbn; split; by repeat constructor.
    + by split.
Qed.

Lemma chunkLoop_replay fuel cfg ctx calls i results node :
  replay (Client cfg)
    (calls_made (events (loop fuel cfg ctx calls i results node))) node
  = (returns (events (loop fuel cfg ctx calls i results node)),
     node_after (loop fuel cfg ctx calls i results node)).
Proof.
  revert i results node. induction fuel as [|fuel IH]; intros i results node.
  - done.
  - loop_cases fuel IH.
    + cbn [after finish events node_after].
      rewrite calls_made_app, returns_app. cbn [calls_made returns app replay].
      by rewrite Hcall, IH.
    + destruct Hb; cbn [finish events node_after calls_made returns replay];
        try done;
        match goal with
        | H : CallContract _ _ _ _ _ = _ |- _ => by rewrite H
        end.
    + done.
Qed.

(** Where a decoded response comes from: the batch of the same rank was
    packed, the call of the same rank carried the packed bytes, and the
    response is the decoding of what that call returned. *)
Lemma chunkLoop_response_origin fuel cfg ctx calls i results node (q : nat)
    response :
  responses (events (loop fuel cfg ctx calls i results node)) !! q
    = Some response ->
  exists (batch : list CallRequest) (callData raw : bytes),
    batches (events (loop fuel cfg ctx calls i results node)) !! q
      = Some batch /\
    Pack "aggregate3" batch = ok callData /\
    calls_made (events (loop fuel cfg ctx calls i results node)) !! q
      = Some (ctx, {| ethereum.To := Some (MulticallAddress cfg);
                      ethereum.Data := callData |}, None) /\
    returns (events (loop fuel cfg ctx calls i results node)) !! q
      = Some (ok raw) /\
    UnpackIntoInterface "aggregate3" raw = ok response.
Proof.
  revert i results node q. induction fuel as [|fuel IH]; intros i results node q.
  - done.
  - loop_cases fuel IH.
    + cbn [after finish events].
      rewrite responses_app, batches_app, calls_made_app, returns_app.
      cbn [responses batches calls_made returns app].
      destruct q as [|q]; cbn [lookup list_lookup].
      * intros [= <-]. by eexists _, _, _.
      * apply IH.
    + destruct Hb; cbn [finish events responses batches calls_made returns];
        try done; destruct q as [|q]; try done; cbn [lookup list_lookup];
        intros [= <-]; by eexists _, _, _.
    + done.
Qed.

(** X1.  Every remote call of a run goes to the configured multicall
    address with a nil block number, and the [k]-th one carries the bytes
    that [Pack] made of the [k]-th batch. *)
Theorem MulticallRaw_calls_carry_batches fuel cfg calls node (k : nat)
    c msg blockNumber :
  calls_made (events (run fuel cfg calls node)) !! k
    = Some (c, msg, blockNumber) ->
  ethereum.To msg = Some (MulticallAddress cfg) /\
  blockNumber = None /\
  exists batch,
    batches (events (run fuel cfg calls node)) !! k = Some batch /\
    Pack "aggregate3" batch = ok (ethereum.Data msg).
Proof. unfold MulticallRaw. cbv zeta. apply chunkLoop_calls_made. Qed.

(** X2.  What a run hands to [UnpackIntoInterface] is what the node
    replied, reply by reply in order, and nothing else; and the ABI is
    only ever used with the method [aggregate3]. *)
Theorem MulticallRaw_decodes_replies fuel cfg calls node :
  unpacked (events (run fuel cfg calls node))
    = replies (events (run fuel cfg calls node)) /\
  Forall (eq "aggregate3") (methods (events (run fuel cfg calls node))).
Proof. unfold MulticallRaw. cbv zeta. apply chunkLoop_unpacked. Qed.

(** X3.  The remote calls of a run are made strictly one after the other:
    replaying them in order from the node state at entry gives back what
    each call returned in the run and the node state the run leaves. *)
Theorem MulticallRaw_calls_in_sequence fuel cfg calls node :
  replay (Client cfg) (calls_made (events (run fuel cfg calls node))) node
  = (returns (events (run fuel cfg calls node)),
     node_after (run fuel cfg calls node)).
Proof. unfold MulticallRaw. cbv zeta. apply chunkLoop_replay. Qed.

(** ** Batches of a positive size *)

Lemma chunk_take {A : Type} (s : list A) (i n : Z) :
  0 <= i < len s -> 1 <= n ->
  take (Z.to_nat (Z.min (i + n) (len s) - i)) (drop (Z.to_nat i) s)
    = take (Z.to_nat n) (drop (Z.to_nat i) s).
Proof.
  intros Hi Hn. destruct (Z.le_gt_cases (i + n) (len s)).
  - rewrite Z.min_l by done. f_equal. lia.
  - rewrite Z.min_r by lia.
    rewrite !take_ge; [done| |]; rewrite length_drop; unfold len in *; lia.
Qed.

Section Traffic.

Variable cfg : MulticallConfig EthClient.
Variable calls : list CallRequest.
Hypothesis batch_pos : 1 <= BatchSize cfg.
Hypothesis batch_int : GoInt.in_range (BatchSize cfg).
Hypothesis calls_fit : len calls < 2 ^ 62.

Lemma chunkLoop_batches fuel ctx (k : nat) results node :
  (forall (q : nat) (batch : list CallRequest),
     batches (events (loop fuel cfg ctx calls (Z.of_nat k * BatchSize cfg)
                        results node)) !! q = Some batch ->
     batch = take (Z.to_nat (BatchSize cfg))
               (drop (Z.to_nat (Z.of_nat (k + q) * BatchSize cfg)) calls) /\
     Z.of_nat (k + q) * BatchSize cfg < len calls) /\
  (forall res,
     outcome (loop fuel cfg ctx calls (Z.of_nat k * BatchSize cfg) results node)
       = Returned (Some res) None ->
     concat (batches (events (loop fuel cfg ctx calls
                                (Z.of_nat k * BatchSize cfg) results node)))
       = drop (Z.to_nat (Z.of_nat k * BatchSize cfg)) calls).
Proof.
  revert k results node. induction fuel as [|fuel IH]; intros k results node.
  - by split.
  - assert (Hbatch : forall batch,
              Z.of_nat k * BatchSize cfg < len calls ->
              slice calls (Z.of_nat k * BatchSize cfg)
                (Z.min (GoInt.add (Z.of_nat k * BatchSize cfg) (BatchSize cfg))
                   (len calls)) = Some batch ->
              batch = take (Z.to_nat (BatchSize cfg))
                        (drop (Z.to_nat (Z.of_nat k * BatchSize cfg)) calls)).
    { intros batch Hlt Hsl. rewrite (add_step cfg calls) in Hsl by done.
      apply slice_inv in Hsl as (_ & _ & ->).
      replace (Z.of_nat (S k) * BatchSize cfg)
        with (Z.of_nat k * BatchSize cfg + BatchSize cfg) by lia.
      apply chunk_take; lia. }
    loop_cases fuel IH.
    + apply Hbatch in Hslice as ->; [|done].
      rewrite (add_step cfg calls) by done. cbn [after finish outcome events].
      rewrite batches_app. cbn [batches app].
      destruct (IH (S k) results' node') as [IHq IHc]. split.
      * intros [|q] b; cbn [lookup list_lookup].
        -- intros [= <-]. replace (k + 0)%nat with k by lia. done.
        -- intros Hb. apply IHq in Hb.
           by replace (k + S q)%nat with (S k + q)%nat by lia.
      * intros res Hret. cbn [concat]. rewrite (IHc res Hret).
        replace (Z.to_nat (Z.of_nat (S k) * BatchSize cfg))
          with (Z.to_nat (Z.of_nat k * BatchSize cfg) + Z.to_nat (BatchSize cfg))%nat
          by lia.
        rewrite <- drop_drop. apply take_drop.
    + split; [|by destruct Hb].
      destruct Hb as [high Hsl|batch err high Hsl|batch callData err nd high msg Hsl
                     |batch callData raw err nd high msg Hsl
                     |batch callData raw response nd high msg Hsl];
        subst high; cbn [finish events batches]; try done;
        apply Hbatch in Hsl as ->; try done;
        intros [|q] b; try done; cbn [lookup list_lookup]; intros [= <-];
        by replace (k + 0)%nat with k by lia.
    + split; [done|]. intros res _. cbn [finish events batches concat].
      rewrite drop_ge; [done|]. unfold len in *. lia.
Qed.

(** The remote calls of a run are never more than the chunks need, and as
    many when the run returns its results. *)
Lemma chunkLoop_calls_count fuel ctx (k : nat) results node :
  ((0 < length (calls_made (events (loop fuel cfg ctx calls
                   (Z.of_nat k * BatchSize cfg) results node))))%nat ->
   (Z.of_nat (k + length (calls_made (events (loop fuel cfg ctx calls
                   (Z.of_nat k * BatchSize cfg) results node)))) - 1)
     * BatchSize cfg < len calls) /\
  (forall res,
     outcome (loop fuel cfg ctx calls (Z.of_nat k * BatchSize cfg) results node)
       = Returned (Some res) None ->
     len calls
       <= Z.of_nat (k + length (calls_made (events (loop fuel cfg ctx calls
                    (Z.of_nat k * BatchSize cfg) results node))))
          * BatchSize cfg).
Proof.
  revert k results node. induction fuel as [|fuel IH]; intros k results node.
  - split; [cbn; lia|done].
  - loop_cases fuel IH.
    + rewrite (add_step cfg calls) by done. cbn [after finish outcome events].
      rewrite calls_made_app. cbn [calls_made app length].
      destruct (IH (S k) results' node') as [IHn IHr].
      set (n := length (calls_made (events (loop fuel cfg ctx calls
                  (Z.of_nat (S k) * BatchSize cfg) results' node')))) in *.
      split.
      * intros _. destruct n as [|n]; [|specialize (IHn ltac:(lia))]; nia.
      * intros res Hret. specialize (IHr res Hret).
        by replace (k + S n)%nat with (S k + n)%nat by lia.
    + split; [|by destruct Hb].
      destruct Hb; cbn [finish events calls_made length]; intros ?; nia.
    + split; [cbn; lia|]. intros res _. cbn [finish events calls_made length].
      nia.
Qed.

(** A response fits the buffer from the start of its chunk on, or it is
    the last one decoded and the run has panicked; and a panic is never
    anything else. *)
Lemma chunkLoop_overrun fuel ctx (k : nat) results node :
  length results = length calls ->
  (forall msg,
     outcome (loop fuel cfg ctx calls (Z.of_nat k * BatchSize cfg) results node)
       = Panicked msg ->
     msg = "index out of range" /\
     exists (s e : Z) (response : list CallResult),
       last (slices (events (loop fuel cfg ctx calls
                               (Z.of_nat k * BatchSize cfg) results node)))
         = Some (s, e) /\
       last (responses (events (loop fuel cfg ctx calls
                                  (Z.of_nat k * BatchSize cfg) results node)))
         = Some response /\
       len calls < s + len response) /\
  (forall (q : nat) (response : list CallResult),
     responses (events (loop fuel cfg ctx calls (Z.of_nat k * BatchSize cfg)
                          results node)) !! q = Some response ->
     Z.of_nat (k + q) * BatchSize cfg + len response <= len calls \/
     (outcome (loop fuel cfg ctx calls (Z.of_nat k * BatchSize cfg) results node)
        = Panicked "index out of range" /\
      S q = length (responses (events (loop fuel cfg ctx calls
                                         (Z.of_nat k * BatchSize cfg)
                                         results node))))).
Proof.
  revert k results node. induction fuel as [|fuel IH]; intros k results node Hlen.
  - by split.
  - assert (Hres : len results = len calls) by (unfold len; congruence).
    loop_cases fuel IH.
    + pose proof (store_length _ _ _ _ _ Hstore) as Hlen'.
      rewrite store_closed in Hstore by lia.
      destruct (Z.leb_spec (Z.of_nat k * BatchSize cfg + 0 + len response)
                  (len results)) as [Hle|]; [|done].
      clear Hstore.
      rewrite (add_step cfg calls) by done. cbn [after finish outcome events].
      rewrite slices_app, responses_app. cbn [slices responses app].
      destruct (IH (S k) results' node' ltac:(congruence)) as [IHp IHq]. split.
      * intros msg (-> & s & e & resp & Hs & Hr & Hover)%IHp. split; [done|].
        exists s, e, resp. rewrite !last_cons, Hs, Hr. done.
      * intros [|q] resp; cbn [lookup list_lookup length].
        -- intros [= <-]. left. lia.
        -- intros [Hfit|[Hp Hq]]%IHq.
           ++ left. by replace (k + S q)%nat with (S k + q)%nat by lia.
           ++ right. split; [done|]. by rewrite Hq.
    + destruct Hb as [high Hsl|batch err high Hsl|batch callData err nd high msg Hsl
                     |batch callData raw err nd high msg Hsl
                     |batch callData raw response nd high msg Hsl ? ? ? Hst];
        subst high; cbn [finish outcome events slices responses]; try done.
      * rewrite (add_step cfg calls) in Hsl by done. by rewrite slice_Some in Hsl by lia.
      * rewrite store_closed in Hst by lia.
        destruct (Z.leb_spec (Z.of_nat k * BatchSize cfg + 0 + len response)
                    (len results)) as [|Hover]; [done|].
        split.
        -- intros m [= <-]. split; [done|]. eexists _, _, _.
           split; [reflexivity|]. split; [reflexivity|]. lia.
        -- intros [|q] resp; [|done]. intros [= <-]. right. done.
    + by split.
Qed.

(** Past the response, the store loop leaves the slots as they were. *)
Lemma store_lookup_rest results results' response (k : nat) :
  length results = length calls ->
  Z.of_nat k * BatchSize cfg < len calls ->
  store results (Z.of_nat k * BatchSize cfg) 0 response = Some results' ->
  forall p : nat,
    Z.of_nat k * BatchSize cfg + len response <= Z.of_nat p ->
    results' !! p = results !! p.
Proof.
  intros Hlen Hk Hstore p Hp.
  assert (Hres : len results = len calls) by (unfold len; congruence).
  rewrite store_closed in Hstore by lia.
  destruct (Z.leb_spec (Z.of_nat k * BatchSize cfg + 0 + len response)
              (len results)) as [Hle|]; [|done].
  injection Hstore as <-. rewrite Z.add_0_r in *.
  assert (Htake : length (take (Z.to_nat (Z.of_nat k * BatchSize cfg)) results)
                  = Z.to_nat (Z.of_nat k * BatchSize cfg))
    by (rewrite length_take; unfold len in *; lia).
  unfold len in *.
  rewrite lookup_app_r by lia. rewrite lookup_app_r by lia.
  rewrite lookup_drop. f_equal. lia.
Qed.

(** When no response has more entries than a batch has calls, the slots
    for which a response has no entry keep the zero value. *)
Lemma chunkLoop_zero_fill fuel ctx (k : nat) results node res :
  length results = length calls ->
  (forall p : nat, Z.of_nat k * BatchSize cfg <= Z.of_nat p < len calls ->
     results !! p = Some zeroCallResult) ->
  outcome (loop fuel cfg ctx calls (Z.of_nat k * BatchSize cfg) results node)
    = Returned (Some res) None ->
  Forall (fun response => len response <= BatchSize cfg)
    (responses (events (loop fuel cfg ctx calls (Z.of_nat k * BatchSize cfg)
                          results node))) ->
  forall q j : nat,
    Z.of_nat j < BatchSize cfg ->
    Z.of_nat (k + q) * BatchSize cfg + Z.of_nat j < len calls ->
    exists response,
      responses (events (loop fuel cfg ctx calls (Z.of_nat k * BatchSize cfg)
                           results node)) !! q = Some response /\
      res !! Z.to_nat (Z.of_nat (k + q) * BatchSize cfg + Z.of_nat j)
        = Some (default zeroCallResult (response !! j)).
Proof.
  revert k results node.
  induction fuel as [|fuel IH]; intros k results node Hlen Hzero.
  - done.
  - loop_cases fuel IH.
    + rewrite (add_step cfg calls) by done. cbn [after finish outcome events].
      rewrite responses_app. cbn [responses app].
      destruct (store_lookup cfg calls batch_pos calls_fit
                  _ _ _ _ Hlen Hlt Hstore) as (Hlen' & Hold & Hnew).
      pose proof (store_lookup_rest _ _ _ _ Hlen Hlt Hstore) as Hrest.
      intros Hret [Hshort Hall]%Forall_cons.
      destruct (chunkLoop_results cfg calls batch_pos batch_int calls_fit
                  _ _ _ _ _ _ Hlen' Hret) as [IHold _].
      intros [|q] j Hj Hjn.
      * exists response. split; [done|].
        replace (k + 0)%nat with k in * by lia.
        rewrite IHold by lia.
        destruct (response !! j) as [x|] eqn:Hx; cbn [default].
        -- by apply Hnew.
        -- apply lookup_ge_None in Hx. unfold len in *.
           rewrite Hrest by lia. apply Hzero. lia.
      * destruct (IH (S k) results' node' Hlen') with (q := q) (j := j)
          as (resp & Hresp & Hslot); try done.
        -- intros p Hp. unfold len in *. rewrite Hrest by lia. apply Hzero. lia.
        -- by replace (S k + q)%nat with (k + S q)%nat by lia.
        -- exists resp. split; [done|].
           by replace (k + S q)%nat with (S k + q)%nat by lia.
    + by destruct Hb.
    + intros _ _ q j Hj Hjn. nia.
Qed.

(** X4.  With a batch size of at least 1, the [q]-th batch handed to
    [Pack] is the segment of at most [BatchSize] calls that starts at
    index [q * BatchSize]; it is never empty.  When the call returns its
    results, the batches put end to end are the request list: every call
    was sent once, in order. *)
Theorem MulticallRaw_batches_split fuel node :
  (forall (q : nat) (batch : list CallRequest),
     batches (events (run fuel cfg calls node)) !! q = Some batch ->
     batch = take (Z.to_nat (BatchSize cfg))
               (drop (Z.to_nat (Z.of_nat q * BatchSize cfg)) calls) /\
     batch <> [] /\ len batch <= BatchSize cfg) /\
  (forall res,
     outcome (run fuel cfg calls node) = Returned (Some res) None ->
     concat (batches (events (run fuel cfg calls node))) = calls).
Proof.
  unfold MulticallRaw. cbv zeta.
  change 0 with (Z.of_nat 0 * BatchSize cfg).
  destruct (chunkLoop_batches fuel
              (WithTimeout Background (Timeout cfg) (now node)) 0
              (replicate (length calls) zeroCallResult) node) as [Hq Hc].
  split.
  - intros q batch [-> Hlt]%Hq. cbn [Nat.add] in *. split; [done|].
    assert (Hl : len (take (Z.to_nat (BatchSize cfg))
                        (drop (Z.to_nat (Z.of_nat q * BatchSize cfg)) calls))
                 = Z.min (BatchSize cfg) (len calls - Z.of_nat q * BatchSize cfg))
      by (unfold len in *; rewrite length_take, length_drop; lia).
    split; [|lia].
    intros Hnil. rewrite Hnil in Hl.
    change (len (@nil CallRequest)) with 0 in Hl. lia.
  - intros res Hret. by rewrite (Hc res Hret).
Qed.

(** X5.  With a batch size of at least 1, a run makes at most
    [ceil(len calls / BatchSize)] remote calls, and exactly that many
    when it returns its results. *)
Theorem MulticallRaw_calls_count fuel node :
  Z.of_nat (length (calls_made (events (run fuel cfg calls node))))
    <= (len calls + BatchSize cfg - 1) / BatchSize cfg /\
  (forall res,
     outcome (run fuel cfg calls node) = Returned (Some res) None ->
     Z.of_nat (length (calls_made (events (run fuel cfg calls node))))
       = (len calls + BatchSize cfg - 1) / BatchSize cfg).
Proof.
  unfold MulticallRaw. cbv zeta.
  change 0 with (Z.of_nat 0 * BatchSize cfg).
  destruct (chunkLoop_calls_count fuel
              (WithTimeout Background (Timeout cfg) (now node)) 0
              (replicate (length calls) zeroCallResult) node) as [Hn Hr].
  set (n := length (calls_made (events (chunkLoop CallContract Pack
               UnpackIntoInterface fuel cfg
               (WithTimeout Background (Timeout cfg) (now node)) calls
               (Z.of_nat 0 * BatchSize cfg)
               (replicate (length calls) zeroCallResult) node)))) in *.
  cbn [Nat.add] in *. pose proof (len_nonneg calls). split.
  - destruct n as [|n]; [apply Z.div_pos; lia|].
    specialize (Hn ltac:(lia)).
    apply Z.div_le_lower_bound; [lia|]. nia.
  - intros res Hret. specialize (Hr res Hret).
    apply Z.div_unique with (len calls + BatchSize cfg - 1
                                       - BatchSize cfg * Z.of_nat n).
    + left. destruct n as [|n]; [nia|]. specialize (Hn ltac:(lia)). nia.
    + lia.
Qed.

(** X6.  With a batch size of at least 1, [MulticallRaw] panics in one
    case only: the response decoded last has more entries than the result
    buffer has slots from the start of its chunk on, and the panic is
    "index out of range".  Every other response decoded in a run fits the
    buffer from the start of its chunk on. *)
Theorem MulticallRaw_overrun_panics fuel node :
  (forall msg,
     outcome (run fuel cfg calls node) = Panicked msg ->
     msg = "index out of range" /\
     exists (s e : Z) (response : list CallResult),
       last (slices (events (run fuel cfg calls node))) = Some (s, e) /\
       last (responses (events (run fuel cfg calls node))) = Some response /\
       len calls < s + len response) /\
  (forall (q : nat) (response : list CallResult),
     responses (events (run fuel cfg calls node)) !! q = Some response ->
     Z.of_nat q * BatchSize cfg + len response <= len calls \/
     (outcome (run fuel cfg calls node) = Panicked "index out of range" /\
      S q = length (responses (events (run fuel cfg calls node))))).
Proof.
  unfold MulticallRaw. cbv zeta.
  change 0 with (Z.of_nat 0 * BatchSize cfg).
  apply (chunkLoop_overrun fuel _ 0). apply length_replicate.
Qed.

(** X7.  With a batch size of at least 1, when the call returns its
    results and no response decoded has more entries than a batch has
    calls, every slot is determined: slot [i] holds the entry at offset
    [i mod BatchSize] of the response decoded for chunk [i / BatchSize],
    and the zero value (not successful, no data) when that response has
    no such entry. *)
Theorem MulticallRaw_missing_entries_are_zero fuel node res :
  outcome (run fuel cfg calls node) = Returned (Some res) None ->
  Forall (fun response => len response <= BatchSize cfg)
    (responses (events (run fuel cfg calls node))) ->
  forall i : Z, 0 <= i < len calls ->
    exists response,
      responses (events (run fuel cfg calls node))
        !! Z.to_nat (i / BatchSize cfg) = Some response /\
      res !! Z.to_nat i
        = Some (default zeroCallResult
                  (response !! Z.to_nat (i mod BatchSize cfg))).
Proof.
  unfold MulticallRaw. cbv zeta. intros Hret Hshort i Hi.
  pose proof (Z.div_mod i (BatchSize cfg)).
  pose proof (Z.mod_pos_bound i (BatchSize cfg)).
  pose proof (Z.div_pos i (BatchSize cfg)).
  assert (Hzero : forall p : nat,
            Z.of_nat 0 * BatchSize cfg <= Z.of_nat p < len calls ->
            replicate (length calls) zeroCallResult !! p = Some zeroCallResult).
  { intros p Hp. apply lookup_replicate_2. unfold len in *. lia. }
  destruct (chunkLoop_zero_fill fuel
              (WithTimeout Background (Timeout cfg) (now node)) 0
              (replicate (length calls) zeroCallResult) node res
              (length_replicate (length calls) zeroCallResult) Hzero Hret Hshort
              (Z.to_nat (i / BatchSize cfg)) (Z.to_nat (i mod BatchSize cfg)))
    as (response & Hresp & Hslot); [lia|nia|].
  exists response. split; [exact Hresp|]. rewrite <- Hslot. do 2 f_equal. lia.
Qed.

Lemma chunkLoop_error_index fuel ctx (k : nat) results node rs e :
  outcome (loop fuel cfg ctx calls (Z.of_nat k * BatchSize cfg) results node)
    = Returned rs (Some e) ->
  exists ev,
    last (events (loop fuel cfg ctx calls (Z.of_nat k * BatchSize cfg)
                    results node)) = Some ev /\
    reports e
      (Z.of_nat (k + length (responses (events (loop fuel cfg ctx calls
                    (Z.of_nat k * BatchSize cfg) results node))))
       * BatchSize cfg) ev.
Proof.
  revert k results node. induction fuel as [|fuel IH]; intros k results node.
  - done.
  - loop_cases fuel IH.
    + rewrite (add_step cfg calls) by done. cbn [after finish outcome events].
      intros (ev & Hl & Hr)%IH. exists ev.
      rewrite responses_app, last_app, Hl. cbn [responses app length].
      split; [done|].
      by rewrite Nat.add_succ_r, <- Nat.add_succ_l.
    + destruct Hb; try done; cbn [finish outcome events responses length];
        intros [= <- <-]; eexists; (split; [reflexivity|]);
        replace (k + 0)%nat with k by lia; reflexivity.
    + done.
Qed.

(** X12.  With a batch size of at least 1, the index in the message of a
    returned error tells how far the call got: the message is made of the
    words for the failed step, then, in decimal, [BatchSize] times the
    number of responses decoded before the failure (the number of
    requests that had been dealt with), a colon, and the message of the
    error of the failed operation, which unwrapping gives back. *)
Theorem MulticallRaw_error_index fuel node rs e :
  outcome (run fuel cfg calls node) = Returned rs (Some e) ->
  exists (ev : Event) (prefix : string) (inner : error),
    last (events (run fuel cfg calls node)) = Some ev /\
    failure_of ev = Some (prefix, inner) /\
    Unwrap e = Some inner /\
    Error e
      = prefix
        +:+ pretty (Z.of_nat (length (responses (events (run fuel cfg calls node))))
                    * BatchSize cfg)
        +:+ ": " +:+ Error inner.
Proof.
  unfold MulticallRaw. cbv zeta. intros Hret.
  destruct (chunkLoop_error_index fuel
              (WithTimeout Background (Timeout cfg) (now node)) 0
              (replicate (length calls) zeroCallResult) node rs e Hret)
    as (ev & Hl & Hr).
  destruct (reports_observable _ _ _ Hr) as (prefix & inner & Hf & Hu & He).
  by exists ev, prefix, inner.
Qed.

(** C1, as the code has it.  With a batch size of at least 1, a call of
    [MulticallRaw] that returns without an error returns as many results
    as it was given calls, in the order of the calls: for every index [i],
    [calls[i]] sits at offset [i mod BatchSize] of the batch of rank
    [i / BatchSize]; that batch was packed and sent, under the context of
    the invocation and to the configured address, by the call of the same
    rank; the reply to that call was decoded into the response of the same
    rank; and the entry of that response at offset [i mod BatchSize],
    whenever the decoder produced one, is [results[i]].  This holds
    whatever the number of calls: none, fewer than a batch, exactly a
    batch, or several chunks. *)
Theorem MulticallRaw_results_in_order fuel node rs :
  outcome (run fuel cfg calls node) = Returned rs None ->
  exists res,
    rs = Some res /\
    length res = length calls /\
    forall i : Z, 0 <= i < len calls ->
      exists (c : CallRequest) (batch : list CallRequest)
             (callData raw : bytes) (response : list CallResult),
        calls !! Z.to_nat i = Some c /\
        batches (events (run fuel cfg calls node))
          !! Z.to_nat (i / BatchSize cfg) = Some batch /\
        batch !! Z.to_nat (i mod BatchSize cfg) = Some c /\
        Pack "aggregate3" batch = ok callData /\
        calls_made (events (run fuel cfg calls node))
          !! Z.to_nat (i / BatchSize cfg)
          = Some (WithTimeout Background (Timeout cfg) (now node),
                  {| ethereum.To := Some (MulticallAddress cfg);
                     ethereum.Data := callData |}, None) /\
        returns (events (run fuel cfg calls node))
          !! Z.to_nat (i / BatchSize cfg) = Some (ok raw) /\
        UnpackIntoInterface "aggregate3" raw = ok response /\
        responses (events (run fuel cfg calls node))
          !! Z.to_nat (i / BatchSize cfg) = Some response /\
        forall x : CallResult,
          response !! Z.to_nat (i mod BatchSize cfg) = Some x ->
          res !! Z.to_nat i = Some x.
Proof.
  unfold MulticallRaw. cbv zeta.
  set (ctx := WithTimeout Background (Timeout cfg) (now node)).
  set (results := replicate (length calls) zeroCallResult).
  intros Hret.
  destruct (chunkLoop_Returned_nil _ _ _ _ _ _ _ _ Hret) as (res & -> & Hlen & _).
  unfold results in Hlen. rewrite length_replicate in Hlen.
  exists res. split; [done|]. split; [done|]. intros i Hi.
  pose proof (Z.div_mod i (BatchSize cfg)).
  pose proof (Z.mod_pos_bound i (BatchSize cfg)).
  pose proof (Z.div_pos i (BatchSize cfg)).
  destruct (chunkLoop_results cfg calls batch_pos batch_int calls_fit fuel ctx 0
              results node res (length_replicate _ _) Hret) as [_ Hnew].
  destruct (Hnew (Z.to_nat (i / BatchSize cfg))) as (response & Hresp & Hslots);
    [nia|].
  change (Z.of_nat 0 * BatchSize cfg) with 0 in Hresp.
  destruct (chunkLoop_response_origin _ _ _ _ _ _ _ _ _ Hresp)
    as (batch & callData & raw & Hb & Hpack & Hcm & Hrt & Hun).
  destruct (chunkLoop_batches fuel ctx 0 results node) as [Hq _].
  change (Z.of_nat 0 * BatchSize cfg) with 0 in Hq.
  destruct (Hq _ _ Hb) as [Hbatch _].
  destruct (lookup_lt_is_Some_2 calls (Z.to_nat i)) as [c Hc];
    [unfold len in *; lia|].
  exists c, batch, callData, raw, response.
  split; [done|]. split; [done|]. split.
  { rewrite Hbatch, lookup_take_lt by lia. rewrite lookup_drop, <- Hc.
    f_equal. lia. }
  split; [done|]. split; [done|]. split; [done|]. split; [done|].
  split; [done|]. intros x Hx. specialize (Hslots _ _ Hx).
  replace (Z.of_nat (0 + Z.to_nat (i / BatchSize cfg)) * BatchSize cfg
           + Z.of_nat (Z.to_nat (i mod BatchSize cfg))) with i in Hslots by lia.
  apply Hslots; lia.
Qed.

End Traffic.

(** ** Batch sizes at the edges *)

(** X8.  A negative batch size makes [MulticallRaw] panic on any
    non-empty request list, in the slice expression of the first
    iteration: nothing is packed and the node is not called. *)
Theorem MulticallRaw_negative_batch_size fuel cfg calls node :
  BatchSize cfg < 0 -> GoInt.in_range (BatchSize cfg) -> calls <> [] ->
  run (S fuel) cfg calls node
    = finish (Panicked "slice bounds out of range") node [].
Proof.
  intros Hneg Hint Hcalls. unfold MulticallRaw. cbv zeta. rewrite chunkLoop_S.
  assert (0 < len calls) by (destruct calls; [done|unfold len; cbn; lia]).
  destruct (Z.ltb_spec 0 (len calls)); [|lia].
  unfold body. rewrite GoInt_add_exact by (by rewrite Z.add_0_l).
  rewrite Z.add_0_l, Z.min_l by lia. unfold slice.
  by rewrite (proj2 (Z.leb_gt 0 (BatchSize cfg))) by lia.
Qed.

Lemma chunkLoop_zero_batch fuel cfg ctx calls results node :
  BatchSize cfg = 0 -> 0 < len calls ->
  (forall res,
     outcome (loop fuel cfg ctx calls 0 results node) <> Returned (Some res) None) /\
  Forall (eq (0, 0)) (slices (events (loop fuel cfg ctx calls 0 results node))) /\
  Forall (eq []) (batches (events (loop fuel cfg ctx calls 0 results node))).
Proof.
  intros Hzero Hcalls. revert results node.
  assert (Hhigh : Z.min (GoInt.add 0 (BatchSize cfg)) (len calls) = 0)
    by (rewrite Hzero; change (GoInt.add 0 0) with 0; lia).
  assert (Hbatch : forall batch, slice calls 0 0 = Some batch -> batch = [])
    by (by intros batch (_ & _ & ->)%slice_inv).
  induction fuel as [|fuel IH]; intros results node.
  - by repeat split.
  - loop_cases fuel IH; [| |lia].
    + rewrite Hhigh in *. apply Hbatch in Hslice as ->.
      rewrite Hzero. change (GoInt.add 0 0) with 0.
      cbn [after finish outcome events]. rewrite slices_app, batches_app.
      destruct (IH results' node') as (IHo & IHs & IHb).
      split; [done|]. split; (apply Forall_app_2; [by repeat constructor|done]).
    + destruct Hb as [high Hsl|batch err high Hsl|batch callData err nd high msg Hsl
                     |batch callData raw err nd high msg Hsl
                     |batch callData raw response nd high msg Hsl];
        subst high; rewrite Hhigh in *; try apply Hbatch in Hsl as ->;
        cbn [finish outcome events slices batches];
        by repeat split; repeat constructor.
Qed.

(** X9.  With a batch size of zero, [MulticallRaw] never returns the
    results of a non-empty request list, however long it runs: the index
    stays at 0, every slice it takes is the empty range [[0, 0)] and every
    batch it packs is empty. *)
Theorem MulticallRaw_zero_batch_size fuel cfg calls node :
  BatchSize cfg = 0 -> calls <> [] ->
  (forall res, outcome (run fuel cfg calls node) <> Returned (Some res) None) /\
  Forall (eq (0, 0)) (slices (events (run fuel cfg calls node))) /\
  Forall (eq []) (batches (events (run fuel cfg calls node))).
Proof.
  intros Hzero Hcalls. unfold MulticallRaw. cbv zeta.
  apply chunkLoop_zero_batch; [done|].
  destruct calls; [done|unfold len; cbn; lia].
Qed.

(** From an index past the end the loop does nothing more. *)
Lemma chunkLoop_past_end fuel cfg ctx calls i results node :
  len calls <= i -> events (loop fuel cfg ctx calls i results node) = [].
Proof.
  intros Hi. destruct fuel as [|fuel]; [done|]. rewrite chunkLoop_S.
  by destruct (Z.ltb_spec i (len calls)); [lia|].
Qed.

(** A list that fits one batch takes one iteration. *)
Lemma chunkLoop_single_batch fuel cfg ctx calls results node :
  1 <= len calls <= BatchSize cfg -> GoInt.in_range (BatchSize cfg) ->
  slices (events (loop (S fuel) cfg ctx calls 0 results node))
    = [(0, len calls)] /\
  batches (events (loop (S fuel) cfg ctx calls 0 results node)) = [calls] /\
  (length (calls_made (events (loop (S fuel) cfg ctx calls 0 results node)))
     <= 1)%nat.
Proof.
  intros Hcalls Hint.
  assert (Hadd : GoInt.add 0 (BatchSize cfg) = BatchSize cfg)
    by (by rewrite GoInt_add_exact by (by rewrite Z.add_0_l)).
  assert (Hbatch : forall batch,
            slice calls 0 (Z.min (BatchSize cfg) (len calls)) = Some batch ->
            batch = calls).
  { intros batch (_ & _ & ->)%slice_inv. rewrite Z.min_r by lia.
    cbn [Z.to_nat drop]. apply take_ge. unfold len. lia. }
  loop_cases fuel IH; [| |lia].
  - rewrite Hadd in *. apply Hbatch in Hslice as ->.
    cbn [after finish events]. rewrite chunkLoop_past_end by lia.
    cbn. rewrite Z.min_r by lia. repeat split; first [done|lia].
  - destruct Hb as [high Hsl|batch err high Hsl|batch callData err nd high msg Hsl
                   |batch callData raw err nd high msg Hsl
                   |batch callData raw response nd high msg Hsl];
      subst high; rewrite Hadd in *.
    + by rewrite slice_Some in Hsl by lia.
    + apply Hbatch in Hsl as ->. cbn. rewrite Z.min_r by lia.
      repeat split; first [done|lia].
    + apply Hbatch in Hsl as ->. cbn. rewrite Z.min_r by lia.
      repeat split; first [done|lia].
    + apply Hbatch in Hsl as ->. cbn. rewrite Z.min_r by lia.
      repeat split; first [done|lia].
    + apply Hbatch in Hsl as ->. cbn. rewrite Z.min_r by lia.
      repeat split; first [done|lia].
Qed.

(** X10.  A non-empty list of at most [BatchSize] requests is handled in
    one iteration: one slice, the whole index range; one batch, the whole
    list; at most one remote call. *)
Theorem MulticallRaw_single_batch fuel cfg calls node :
  1 <= len calls <= BatchSize cfg -> GoInt.in_range (BatchSize cfg) ->
  slices (events (run (S fuel) cfg calls node)) = [(0, len calls)] /\
  batches (events (run (S fuel) cfg calls node)) = [calls] /\
  (length (calls_made (events (run (S fuel) cfg calls node))) <= 1)%nat.
Proof. unfold MulticallRaw. cbv zeta. apply chunkLoop_single_batch. Qed.

(** X11.  Under the configuration of [NewDefaultMulticallConfig], a list
    of 1 to 100 requests goes out whole in a single batch, with at most
    one remote call, whose context expires 30 seconds after the entry
    into [MulticallRaw]. *)
Theorem NewDefaultMulticallConfig_single_batch fuel client multicallAddress
    calls node :
  1 <= len calls <= 100 ->
  batches (events (run (S fuel)
                     (NewDefaultMulticallConfig client multicallAddress)
                     calls node)) = [calls] /\
  (length (calls_made (events (run (S fuel)
                     (NewDefaultMulticallConfig client multicallAddress)
                     calls node))) <= 1)%nat /\
  Forall (fun c => deadline c = Some (now node + 30 * Second))
    (contexts (events (run (S fuel)
                     (NewDefaultMulticallConfig client multicallAddress)
                     calls node))).
Proof.
  intros Hcalls. unfold MulticallRaw. cbv zeta.
  destruct (chunkLoop_single_batch fuel
              (NewDefaultMulticallConfig client multicallAddress)
              (WithTimeout Background
                 (Timeout (NewDefaultMulticallConfig client multicallAddress))
                 (now node))
              calls (replicate (length calls) zeroCallResult) node)
    as (_ & Hb & Hc); [done|by vm_compute|].
  split; [done|]. split; [done|].
  eapply Forall_impl; [apply chunkLoop_contexts|].
  by intros c <-.
Qed.

End Loop.

(** * The claims at concrete inputs *)


(** Five calls in batches of two: three chunks, five results in order. *)
Example five_by_two_run :
  outcome Demo.five_by_two = Returned (Some (map Demo.answer Demo.five)) None /\
  slices (events Demo.five_by_two) = [(0, 2); (2, 4); (4, 5)] /\
  length (contexts (events Demo.five_by_two)) = 3%nat.
Proof. by vm_compute. Qed.

(** The node stops answering at the second chunk: no results, and an
    error that names index 2. *)
Example five_by_two_flaky_run :
  outcome Demo.five_by_two_flaky
  = Returned None
      (Some (wrapError "failed to execute multicall 2: context deadline exceeded"
               (errorString "context deadline exceeded"))).
Proof. by vm_compute. Qed.

(** A decoder that rejects the response of the first chunk. *)
Example five_by_two_garbled_run :
  outcome (MulticallRaw Demo.now Demo.echo Demo.Pack Demo.UnpackGarbled 4
             (Demo.cfg 2) Demo.five 0%nat)
  = Returned None
      (Some (wrapError "failed to unpack multicall 0: abi: cannot marshal"
               (errorString "abi: cannot marshal"))).
Proof. by vm_compute. Qed.

(** A decoder that finds no entry in any response: the call returns, and
    the slots keep the zero value they were made with. *)
Example five_by_two_nothing_run :
  outcome (MulticallRaw Demo.now Demo.echo Demo.Pack Demo.UnpackNothing 4
             (Demo.cfg 2) Demo.five 0%nat)
  = Returned (Some (replicate 5 zeroCallResult)) None.
Proof. by vm_compute. Qed.

(** A negative batch size makes the first slice expression panic. *)
Example negative_batch_size_run :
  outcome (MulticallRaw Demo.now Demo.echo Demo.Pack Demo.UnpackIntoInterface 4
             (Demo.cfg (-1)) Demo.five 0%nat)
  = Panicked "slice bounds out of range".
Proof. by vm_compute. Qed.

(** Under a batch size of zero the loop stays at index 0, whatever the
    node's state and however many iterations it is given. *)
Lemma zero_batch_size_loop (fuel : nat) (ctx : Context) (node : nat) :
  outcome (chunkLoop Demo.echo Demo.Pack Demo.UnpackIntoInterface fuel
             (NewMulticallConfig tt Demo.multicall3 0 (30 * Second)) ctx
             [Demo.call Byte.x01] 0 [zeroCallResult] node) = OutOfFuel /\
  slices (events (chunkLoop Demo.echo Demo.Pack Demo.UnpackIntoInterface fuel
             (NewMulticallConfig tt Demo.multicall3 0 (30 * Second)) ctx
             [Demo.call Byte.x01] 0 [zeroCallResult] node))
    = replicate fuel (0, 0).
Proof.
  revert node. induction fuel as [|fuel IH]; intros node; [done|].
  destruct (IH (S node)) as [Ho Hs].
  change (chunkLoop Demo.echo Demo.Pack Demo.UnpackIntoInterface (S fuel)
            (NewMulticallConfig tt Demo.multicall3 0 (30 * Second)) ctx
            [Demo.call Byte.x01] 0 [zeroCallResult] node)
    with (after
            [EvSlice 0 0; EvPack "aggregate3" [] (ok []);
             EvCall ctx {| ethereum.To := Some Demo.multicall3;
                           ethereum.Data := [] |} None (ok []);
             EvUnpack "aggregate3" [] (ok [])]
            (chunkLoop Demo.echo Demo.Pack Demo.UnpackIntoInterface fuel
               (NewMulticallConfig tt Demo.multicall3 0 (30 * Second)) ctx
               [Demo.call Byte.x01] 0 [zeroCallResult] (S node))).
  cbn [after finish outcome events]. rewrite slices_app, Hs. by split.
Qed.

(** C2, refuted as stated: [NewMulticallConfig] accepts a batch size of
    zero and keeps it, and [MulticallRaw] then never leaves its loop on a
    list of one request: with any number of iterations allowed it is
    still running, having taken the empty range [[0, 0)] every time. *)
Lemma zero_batch_size_spins :
  BatchSize (NewMulticallConfig tt Demo.multicall3 0 (30 * Second)) = 0 /\
  forall fuel : nat,
    outcome (Demo.one_by_zero fuel) = OutOfFuel /\
    slices (events (Demo.one_by_zero fuel)) = replicate fuel (0, 0).
Proof. split; [reflexivity|]. intros fuel. apply zero_batch_size_loop. Qed.

Lemma MulticallRaw_results_in_order_witness :
  outcome Demo.five_by_two = Returned (Some (map Demo.answer Demo.five)) None /\
  exists res,
    Some (map Demo.answer Demo.five) = Some res /\
    length res = length Demo.five /\
    forall i : Z, 0 <= i < len Demo.five ->
      exists (c : CallRequest) (batch : list CallRequest)
             (callData raw : bytes) (response : list CallResult),
        Demo.five !! Z.to_nat i = Some c /\
        batches (events Demo.five_by_two) !! Z.to_nat (i / 2) = Some batch /\
        batch !! Z.to_nat (i mod 2) = Some c /\
        Demo.Pack "aggregate3" batch = ok callData /\
        calls_made (events Demo.five_by_two) !! Z.to_nat (i / 2)
          = Some ({| deadline := Some 30000000000 |},
                  {| ethereum.To := Some Demo.multicall3;
                     ethereum.Data := callData |}, None) /\
        returns (events Demo.five_by_two) !! Z.to_nat (i / 2) = Some (ok raw) /\
        Demo.UnpackIntoInterface "aggregate3" raw = ok response /\
        responses (events Demo.five_by_two) !! Z.to_nat (i / 2) = Some response /\
        forall x : CallResult,
          response !! Z.to_nat (i mod 2) = Some x -> res !! Z.to_nat i = Some x.
Proof.
  split; [reflexivity|].
  apply (MulticallRaw_results_in_order Demo.now Demo.echo Demo.Pack
           Demo.UnpackIntoInterface (Demo.cfg 2) Demo.five);
    [by vm_compute|by vm_compute|reflexivity|reflexivity].
Defined.

Lemma MulticallRaw_chunks_tile_witness :
  (forall (q : nat) (s e : Z),
     slices (events Demo.five_by_two) !! q = Some (s, e) ->
     s = Z.of_nat q * 2 /\
     e = Z.min (Z.of_nat q * 2 + 2) (len Demo.five) /\
     0 < e - s <= 2) /\
  (forall (q : nat) (s e : Z),
     slices (events Demo.five_by_two) !! q = Some (s, e) ->
     (S q < length (slices (events Demo.five_by_two)))%nat -> e - s = 2) /\
  (exists high, high <= len Demo.five /\
     tiles 0 high (slices (events Demo.five_by_two))) /\
  (tiles 0 (len Demo.five) (slices (events Demo.five_by_two)) \/
   (exists err, outcome Demo.five_by_two = Returned None (Some err)) \/
   outcome Demo.five_by_two = Panicked "index out of range") /\
  (forall rs,
     outcome Demo.five_by_two = Returned rs None ->
     tiles 0 (len Demo.five) (slices (events Demo.five_by_two))) /\
  (forall answer,
     answers_each_call Demo.echo Demo.Pack Demo.UnpackIntoInterface answer ->
     tiles 0 (len Demo.five) (slices (events Demo.five_by_two))).
Proof.
  apply (MulticallRaw_chunks_tile Demo.now Demo.echo Demo.Pack
           Demo.UnpackIntoInterface (Demo.cfg 2) Demo.five);
    [by vm_compute|by vm_compute|reflexivity|by vm_compute].
Defined.

Lemma MulticallRaw_terminates_witness :
  outcome Demo.five_by_two <> OutOfFuel /\
  ((exists rs e, outcome Demo.five_by_two = Returned rs e) \/
   outcome Demo.five_by_two = Panicked "index out of range") /\
  (forall (q : nat) (s e : Z),
     slices (events Demo.five_by_two) !! q = Some (s, e) -> s = Z.of_nat q * 2) /\
  (length (slices (events Demo.five_by_two)) <= 3)%nat.
Proof.
  apply (MulticallRaw_terminates Demo.now Demo.echo Demo.Pack
           Demo.UnpackIntoInterface (Demo.cfg 2) Demo.five);
    [by vm_compute|by vm_compute|reflexivity|by vm_compute].
Defined.

Lemma MulticallRaw_error_names_chunk_witness :
  exists (i high : Z) (ev : Event) (prefix : string) (inner : error),
    last (slices (events Demo.five_by_two_flaky)) = Some (i, high) /\
    last (events Demo.five_by_two_flaky) = Some ev /\
    failure_of ev = Some (prefix, inner) /\
    Unwrap (wrapError "failed to execute multicall 2: context deadline exceeded"
              (errorString "context deadline exceeded")) = Some inner /\
    Error (wrapError "failed to execute multicall 2: context deadline exceeded"
             (errorString "context deadline exceeded"))
      = prefix +:+ pretty i +:+ ": " +:+ Error inner.
Proof.
  apply (MulticallRaw_error_names_chunk Demo.now (Demo.flaky 1) Demo.Pack
           Demo.UnpackIntoInterface 4 (Demo.cfg 2) Demo.five 0%nat None).
  reflexivity.
Defined.


Lemma NewMulticallConfig_positive_batch_size_witness :
  BatchSize (NewMulticallConfig tt Demo.multicall3 2 (30 * Second)) = 2 /\
  outcome Demo.five_by_two <> OutOfFuel /\
  forall (q : nat) (s e : Z),
    slices (events Demo.five_by_two) !! q = Some (s, e) -> s < e.
Proof.
  apply (NewMulticallConfig_positive_batch_size Demo.now Demo.echo Demo.Pack
           Demo.UnpackIntoInterface tt Demo.multicall3 2 (30 * Second)
           Demo.five 3 0%nat);
    [by vm_compute|by vm_compute|reflexivity|by vm_compute].
Defined.

(** C1, refuted as stated: the call returns without an error, but the
    decoder found no entry in any response, so that no slot holds a
    decoded result of its call; the slots hold the zero value they were
    made with. *)
Lemma empty_responses_leave_zero_values :
  outcome Demo.five_by_two_nothing
    = Returned (Some (replicate 5 zeroCallResult)) None /\
  ~ (forall i : Z, 0 <= i < len Demo.five ->
       exists (response : list CallResult) (x : CallResult),
         responses (events Demo.five_by_two_nothing) !! Z.to_nat (i / 2)
           = Some response /\
         response !! Z.to_nat (i mod 2) = Some x /\
         replicate 5 zeroCallResult !! Z.to_nat i = Some x).
Proof.
  split; [reflexivity|]. intros H.
  destruct (H 0) as (response & x & Hr & Hx & _); [by vm_compute|].
  vm_compute in Hr. injection Hr as <-. discriminate Hx.
Qed.

(** C4, refuted as stated: the decoder stops after the first entry of
    each response, and the call returns no error and a list of which
    every second slot was never written. *)
Lemma short_responses_give_partial_results :
  outcome Demo.five_by_two_first
    = Returned
        (Some [Demo.answer (Demo.call Byte.x01); zeroCallResult;
               Demo.answer (Demo.call Byte.x03); zeroCallResult;
               Demo.answer (Demo.call Byte.x05)]) None /\
  responses (events Demo.five_by_two_first)
    = [[Demo.answer (Demo.call Byte.x01)]; [Demo.answer (Demo.call Byte.x03)];
       [Demo.answer (Demo.call Byte.x05)]] /\
  ~ (forall i : Z, 0 <= i < len Demo.five ->
       exists (response : list CallResult) (x : CallResult),
         responses (events Demo.five_by_two_first) !! Z.to_nat (i / 2)
           = Some response /\
         response !! Z.to_nat (i mod 2) = Some x).
Proof.
  split; [reflexivity|]. split; [reflexivity|]. intros H.
  destruct (H 1) as (response & x & Hr & Hx); [by vm_compute|].
  vm_compute in Hr. injection Hr as <-. discriminate Hx.
Qed.

(** C10, refuted as stated: with a batch size of 2 and five requests, a
    decoder that yields one entry too many makes the third iteration store
    past the end of the result buffer; whatever the number of iterations
    allowed, the call does not return. *)
Lemma padded_response_never_returns :
  1 <= BatchSize (Demo.cfg 2) /\
  outcome Demo.five_by_two_padded = Panicked "index out of range" /\
  forall (fuel : nat) rs e,
    outcome (MulticallRaw Demo.now Demo.echo Demo.Pack Demo.UnpackPadded fuel
               (Demo.cfg 2) Demo.five 0%nat) <> Returned rs e.
Proof.
  split; [by vm_compute|]. split; [reflexivity|].
  intros [|[|[|fuel]]] rs e; by vm_compute.
Qed.

Lemma MulticallRaw_all_or_nothing_witness :
  exists res,
    Some [Demo.answer (Demo.call Byte.x01); zeroCallResult;
          Demo.answer (Demo.call Byte.x03); zeroCallResult;
          Demo.answer (Demo.call Byte.x05)] = Some res /\
    length res = length Demo.five /\
    forall i : Z, 0 <= i < len Demo.five ->
      exists response,
        responses (events Demo.five_by_two_first) !! Z.to_nat (i / 2)
          = Some response /\
        forall x : CallResult,
          response !! Z.to_nat (i mod 2) = Some x -> res !! Z.to_nat i = Some x.
Proof.
  destruct (MulticallRaw_all_or_nothing Demo.now Demo.echo Demo.Pack
              Demo.UnpackFirst 4 (Demo.cfg 2) Demo.five 0%nat) as [_ H].
  destruct (H (Some [Demo.answer (Demo.call Byte.x01); zeroCallResult;
                     Demo.answer (Demo.call Byte.x03); zeroCallResult;
                     Demo.answer (Demo.call Byte.x05)]) None eq_refl)
    as [[Hn _]|(_ & res & Hres & Hlen & _ & _ & Hslots)]; [discriminate Hn|].
  exists res. split; [exact Hres|]. split; [exact Hlen|].
  apply Hslots; by vm_compute.
Defined.

(** * Further properties at concrete inputs *)

Lemma MulticallRaw_calls_carry_batches_witness :
  ethereum.To {| ethereum.To := Some Demo.multicall3;
                 ethereum.Data := [Byte.x03; Byte.x04] |}
    = Some (MulticallAddress (Demo.cfg 2)) /\
  @None Z = None /\
  exists batch,
    batches (events Demo.five_by_two) !! 1%nat = Some batch /\
    Demo.Pack "aggregate3" batch
      = ok (ethereum.Data {| ethereum.To := Some Demo.multicall3;
                             ethereum.Data := [Byte.x03; Byte.x04] |}).
Proof.
  apply (MulticallRaw_calls_carry_batches Demo.now Demo.echo Demo.Pack
           Demo.UnpackIntoInterface 4 (Demo.cfg 2) Demo.five 0%nat 1%nat
           {| deadline := Some 30000000000 |}).
  reflexivity.
Defined.

Lemma MulticallRaw_batches_split_witness :
  (forall (q : nat) (batch : list CallRequest),
     batches (events Demo.five_by_two) !! q = Some batch ->
     batch = take (Z.to_nat 2) (drop (Z.to_nat (Z.of_nat q * 2)) Demo.five) /\
     batch <> [] /\ len batch <= 2) /\
  (forall res,
     outcome Demo.five_by_two = Returned (Some res) None ->
     concat (batches (events Demo.five_by_two)) = Demo.five).
Proof.
  apply (MulticallRaw_batches_split Demo.now Demo.echo Demo.Pack
           Demo.UnpackIntoInterface (Demo.cfg 2) Demo.five); by vm_compute.
Defined.

Lemma MulticallRaw_calls_count_witness :
  Z.of_nat (length (calls_made (events Demo.five_by_two))) <= (5 + 2 - 1) / 2 /\
  (forall res,
     outcome Demo.five_by_two = Returned (Some res) None ->
     Z.of_nat (length (calls_made (events Demo.five_by_two))) = (5 + 2 - 1) / 2).
Proof.
  apply (MulticallRaw_calls_count Demo.now Demo.echo Demo.Pack
           Demo.UnpackIntoInterface (Demo.cfg 2) Demo.five); by vm_compute.
Defined.

Lemma MulticallRaw_overrun_panics_witness :
  outcome Demo.five_by_two_padded = Panicked "index out of range" /\
  (forall msg,
     outcome Demo.five_by_two_padded = Panicked msg ->
     msg = "index out of range" /\
     exists (s e : Z) (response : list CallResult),
       last (slices (events Demo.five_by_two_padded)) = Some (s, e) /\
       last (responses (events Demo.five_by_two_padded)) = Some response /\
       len Demo.five < s + len response) /\
  (forall (q : nat) (response : list CallResult),
     responses (events Demo.five_by_two_padded) !! q = Some response ->
     Z.of_nat q * 2 + len response <= len Demo.five \/
     (outcome Demo.five_by_two_padded = Panicked "index out of range" /\
      S q = length (responses (events Demo.five_by_two_padded)))).
Proof.
  split; [reflexivity|].
  apply (MulticallRaw_overrun_panics Demo.now Demo.echo Demo.Pack
           Demo.UnpackPadded (Demo.cfg 2) Demo.five); by vm_compute.
Defined.

Lemma MulticallRaw_missing_entries_are_zero_witness :
  outcome Demo.five_by_two_nothing
    = Returned (Some (replicate 5 zeroCallResult)) None /\
  forall i : Z, 0 <= i < len Demo.five ->
    exists response,
      responses (events Demo.five_by_two_nothing) !! Z.to_nat (i / 2)
        = Some response /\
      replicate 5 zeroCallResult !! Z.to_nat i
        = Some (default zeroCallResult (response !! Z.to_nat (i mod 2))).
Proof.
  split; [reflexivity|].
  apply (MulticallRaw_missing_entries_are_zero Demo.now Demo.echo Demo.Pack
           Demo.UnpackNothing (Demo.cfg 2) Demo.five);
    [by vm_compute|by vm_compute|by vm_compute|reflexivity
    |repeat constructor; by vm_compute].
Defined.

Lemma MulticallRaw_negative_batch_size_witness :
  MulticallRaw Demo.now Demo.echo Demo.Pack Demo.UnpackIntoInterface 4
    (Demo.cfg (-1)) Demo.five 0%nat
  = finish (Panicked "slice bounds out of range") 0%nat [].
Proof.
  apply (MulticallRaw_negative_batch_size Demo.now Demo.echo Demo.Pack
           Demo.UnpackIntoInterface 3 (Demo.cfg (-1)) Demo.five 0%nat);
    by vm_compute.
Defined.

Lemma MulticallRaw_zero_batch_size_witness :
  (forall res,
     outcome (MulticallRaw Demo.now Demo.echo Demo.Pack Demo.UnpackIntoInterface
                4 (Demo.cfg 0) Demo.five 0%nat) <> Returned (Some res) None) /\
  Forall (eq (0, 0))
    (slices (events (MulticallRaw Demo.now Demo.echo Demo.Pack
                       Demo.UnpackIntoInterface 4 (Demo.cfg 0) Demo.five 0%nat))) /\
  Forall (eq [])
    (batches (events (MulticallRaw Demo.now Demo.echo Demo.Pack
                        Demo.UnpackIntoInterface 4 (Demo.cfg 0) Demo.five 0%nat))).
Proof.
  apply (MulticallRaw_zero_batch_size Demo.now Demo.echo Demo.Pack
           Demo.UnpackIntoInterface 4 (Demo.cfg 0) Demo.five 0%nat);
    by vm_compute.
Defined.

Lemma MulticallRaw_single_batch_witness :
  slices (events (MulticallRaw Demo.now Demo.echo Demo.Pack
                    Demo.UnpackIntoInterface 2 (Demo.cfg 100) Demo.five 0%nat))
    = [(0, len Demo.five)] /\
  batches (events (MulticallRaw Demo.now Demo.echo Demo.Pack
                     Demo.UnpackIntoInterface 2 (Demo.cfg 100) Demo.five 0%nat))
    = [Demo.five] /\
  (length (calls_made (events (MulticallRaw Demo.now Demo.echo Demo.Pack
                     Demo.UnpackIntoInterface 2 (Demo.cfg 100) Demo.five 0%nat)))
     <= 1)%nat.
Proof.
  apply (MulticallRaw_single_batch Demo.now Demo.echo Demo.Pack
           Demo.UnpackIntoInterface 1 (Demo.cfg 100) Demo.five 0%nat);
    by vm_compute.
Defined.

Lemma NewDefaultMulticallConfig_single_batch_witness :
  batches (events (MulticallRaw Demo.now Demo.echo Demo.Pack
                     Demo.UnpackIntoInterface 2
                     (NewDefaultMulticallConfig tt Demo.multicall3)
                     Demo.five 0%nat)) = [Demo.five] /\
  (length (calls_made (events (MulticallRaw Demo.now Demo.echo Demo.Pack
                     Demo.UnpackIntoInterface 2
                     (NewDefaultMulticallConfig tt Demo.multicall3)
                     Demo.five 0%nat))) <= 1)%nat /\
  Forall (fun c => deadline c = Some (Demo.now 0%nat + 30 * Second))
    (contexts (events (MulticallRaw Demo.now Demo.echo Demo.Pack
                     Demo.UnpackIntoInterface 2
                     (NewDefaultMulticallConfig tt Demo.multicall3)
                     Demo.five 0%nat))).
Proof.
  apply (NewDefaultMulticallConfig_single_batch Demo.now Demo.echo Demo.Pack
           Demo.UnpackIntoInterface 1 tt Demo.multicall3 Demo.five 0%nat).
  by vm_compute.
Defined.

Lemma MulticallRaw_error_index_witness :
  length (responses (events Demo.five_by_two_flaky)) = 1%nat /\
  exists (ev : Event) (prefix : string) (inner : error),
    last (events Demo.five_by_two_flaky) = Some ev /\
    failure_of ev = Some (prefix, inner) /\
    Unwrap (wrapError "failed to execute multicall 2: context deadline exceeded"
              (errorString "context deadline exceeded")) = Some inner /\
    Error (wrapError "failed to execute multicall 2: context deadline exceeded"
             (errorString "context deadline exceeded"))
      = prefix
        +:+ pretty (Z.of_nat (length (responses (events Demo.five_by_two_flaky)))
                    * 2)
        +:+ ": " +:+ Error inner.
Proof.
  split; [reflexivity|].
  apply (MulticallRaw_error_index Demo.now (Demo.flaky 1) Demo.Pack
           Demo.UnpackIntoInterface (Demo.cfg 2) Demo.five
           ltac:(by vm_compute) ltac:(by vm_compute) ltac:(by vm_compute)
           4 0%nat None).
  reflexivity.
Defined.
